(** * Telemetry core of the AI API usage monitor (team-c-monitor)

    Shallow embedding of
    - [backend/app/core/sliding_window.py]  ([SlidingWindow])
    - [backend/app/core/metrics.py]         ([compute_metrics])
    - [backend/app/core/anomalies.py]       ([detect_anomalies])
    - [backend/app/main.py]                 ([ingest_log], [get_metrics])
    - [frontend/components/status_box.py]   ([render_status])
    - [frontend/utils/api_client.py]        ([fetch_metrics])

    Python objects are duck typed: an attribute may be missing (reading it
    raises [AttributeError]) and a present attribute holds some Python
    value.  Python [int]s are unbounded integers; [float]s and numpy's
    [float64] are IEEE 754 binary64 values, rounded to nearest with ties
    to even ([F64]).  The numpy reductions follow numpy 2 (NEP 50
    promotion, pairwise summation, the "linear" percentile), and the
    builtin [sum] follows CPython 3.11 (a plain left fold; later versions
    compensate float sums). *)

From Stdlib Require Import ZArith QArith Qabs Qround Qpower Lia List String Ascii Bool.
From Stdlib Require Import Sorted Qreals Reals Lra Psatz.
Import ListNotations.
Open Scope string_scope.

(** ** IEEE 754 binary64 *)

Module F64.
Local Open Scope Q_scope.

(** A double: a finite value (its exact rational value, in lowest terms),
    an infinity with its sign, or NaN.  The sign of a zero is not
    represented. *)
Inductive t : Type :=
| Fin (x : Q)
| Inf (neg : bool)
| NaN.

Definition Qltb (a b : Q) : bool := negb (Qle_bool b a).

(** [2 ^ e] *)
Definition pow2 (e : Z) : Q := Qpower (inject_Z 2) e.

(** [floor (log2 |x|)], for [x <> 0]. *)
Definition qlog2 (x : Q) : Z :=
  let p := Z.abs (Qnum x) in
  let q := Zpos (Qden x) in
  let a := (Z.log2 p - Z.log2 q)%Z in
  if (0 <=? a)%Z then (if (q * 2 ^ a <=? p)%Z then a else a - 1)%Z
  else (if (q <=? p * 2 ^ (- a))%Z then a else a - 1)%Z.

(** Rounding of [n + f] ([0 <= f < 1]) to an integer, to nearest with
    ties to even, from [n] and the comparison of [f] with [1/2]. *)
Definition rne (n : Z) (c : comparison) : Z :=
  match c with
  | Lt => n
  | Eq => if Z.even n then n else (n + 1)%Z
  | Gt => (n + 1)%Z
  end.

(** The double [(-1)^neg * m * 2^e], or the infinity it overflows to. *)
Definition finish (neg : bool) (m e : Z) : t :=
  let v := inject_Z m * pow2 e in
  if Qle_bool (inject_Z (2 ^ 1024)) v then Inf neg
  else Fin (Qred (if neg then - v else v)).

(** Rounding of a rational to an integer, to nearest with ties to even. *)
Definition rnd_int (s : Q) : Z :=
  let n := Qfloor s in rne n (s - inject_Z n ?= (1 # 2)).

(** The exponent of the last place of a double near [x]: 53 significant
    bits, and at least [2^-1074] (subnormals). *)
Definition exponent (x : Q) : Z := Z.max (qlog2 x - 52) (-1074).

(** Rounding of an exact result, to nearest with ties to even, with
    overflow to infinity from [2^1024] on. *)
Definition round (x : Q) : t :=
  let x := Qred x in
  if Qeq_bool x 0 then Fin 0
  else
    let e := exponent x in
    finish (Qltb x 0) (rnd_int (Qabs x * pow2 (- e))) e.

(** Conversion of an integer (C's [(double)], [PyLong_AsDouble] before
    its overflow check, numpy's casts). *)
Definition of_Z (z : Z) : t := round (inject_Z z).

Definition is_nan (a : t) : bool := match a with NaN => true | _ => false end.

Definition is_zero (a : t) : bool :=
  match a with Fin x => Qeq_bool x 0 | _ => false end.

Definition neg (a : t) : t :=
  match a with Fin x => Fin (- x) | Inf s => Inf (negb s) | NaN => NaN end.

Definition add (a b : t) : t :=
  match a, b with
  | NaN, _ | _, NaN => NaN
  | Inf s, Inf s' => if Bool.eqb s s' then Inf s else NaN
  | Inf s, Fin _ | Fin _, Inf s => Inf s
  | Fin x, Fin y => round (x + y)
  end.

Definition sub (a b : t) : t := add a (neg b).

Definition mul (a b : t) : t :=
  match a, b with
  | NaN, _ | _, NaN => NaN
  | Inf s, Inf s' => Inf (xorb s s')
  | Inf s, Fin y | Fin y, Inf s =>
      if Qeq_bool y 0 then NaN else Inf (xorb s (Qltb y 0))
  | Fin x, Fin y => round (x * y)
  end.

(** Division; a zero divisor counts as [+0]. *)
Definition div (a b : t) : t :=
  match a, b with
  | NaN, _ | _, NaN => NaN
  | Inf _, Inf _ => NaN
  | Inf s, Fin y => Inf (xorb s (Qltb y 0))
  | Fin _, Inf _ => Fin 0
  | Fin x, Fin y =>
      if Qeq_bool y 0 then (if Qeq_bool x 0 then NaN else Inf (Qltb x 0))
      else round (x / y)
  end.

(** Correctly rounded square root of a positive rational: with [e] the
    exponent of the last place of the result, [n = floor (sqrt y)] for
    [y = x / 2^(2e)], and [sqrt y] compared with [n + 1/2] through
    [y] and [(n + 1/2)^2]. *)
Definition sqrt_pos (x : Q) : t :=
  let x := Qred x in
  let e := Z.max (Z.div (qlog2 x) 2 - 52) (-1074) in
  let y := x * pow2 (- (2 * e)) in
  let n := Z.sqrt (Qfloor y) in
  let h := inject_Z n + (1 # 2) in
  finish false (rne n (y ?= h * h)) e.

Definition sqrt (a : t) : t :=
  match a with
  | NaN => NaN
  | Inf false => Inf false
  | Inf true => NaN
  | Fin x =>
      if Qeq_bool x 0 then Fin 0
      else if Qltb x 0 then NaN else sqrt_pos x
  end.

(** Ordering; [None] when one operand is NaN. *)
Definition cmp (a b : t) : option comparison :=
  match a, b with
  | NaN, _ | _, NaN => None
  | Inf s, Inf s' =>
      Some (match s, s' with
            | true, false => Lt
            | false, true => Gt
            | _, _ => Eq
            end)
  | Inf s, Fin _ => Some (if s then Lt else Gt)
  | Fin _, Inf s => Some (if s then Gt else Lt)
  | Fin x, Fin y => Some (x ?= y)
  end.

Definition lt (a b : t) : bool :=
  match cmp a b with Some Lt => true | _ => false end.
Definition le (a b : t) : bool :=
  match cmp a b with Some Lt | Some Eq => true | _ => false end.

(** [floor] *)
Definition floor (a : t) : t :=
  match a with Fin x => Fin (inject_Z (Qfloor x)) | _ => a end.

(** The integer a finite double holds after [floor] (0 otherwise). *)
Definition floor_Z (a : t) : Z :=
  match a with Fin x => Qfloor x | _ => 0%Z end.

(** [fmod], exact: [x - trunc (x / y) * y]. *)
Definition fmod (a b : t) : t :=
  match a, b with
  | Fin x, Fin y =>
      if Qeq_bool y 0 then NaN
      else
        let q := x / y in
        let tr := if Qle_bool 0 q then Qfloor q else (- Qfloor (- q))%Z in
        Fin (Qred (x - inject_Z tr * y))
  | Fin x, Inf _ => Fin x
  | _, _ => NaN
  end.

(** A finite double with no fractional part. *)
Definition is_integral (a : t) : bool :=
  match a with Fin x => Pos.eqb (Qden x) 1 | _ => false end.

(** A finite double. *)
Definition is_finite (a : t) : bool :=
  match a with Fin _ => true | _ => false end.

End F64.

(** ** Python values and exceptions *)

(** The values an event attribute or a metrics entry can hold.  [VDict]
    is a [dict]: not a number, and not hashable. *)
Inductive PyVal : Type :=
| VInt (z : Z)
| VFloat (f : F64.t)
| VBool (b : bool)
| VStr (s : string)
| VNone
| VDict.

(** Python exceptions raised along the modelled paths. *)
Inductive exn : Type :=
| ValueError (msg : string)
| RuntimeError (msg : string)
| AttributeError
| TypeError
| OverflowError
| ZeroDivisionError
| IndexError.

(** Outcome of a Python call: an exception or a value. *)
Definition Result (A : Type) := (exn + A)%type.

Definition ret {A} (a : A) : Result A := inr a.
Definition raise {A} (e : exn) : Result A := inl e.
Definition bind {A B} (m : Result A) (k : A -> Result B) : Result B :=
  match m with inl e => inl e | inr a => k a end.

Declare Scope py_scope.
Notation "x <- m ;; k" := (bind m (fun x => k))
  (at level 61, m at next level, right associativity) : py_scope.
Open Scope py_scope.

(** [[f x for x in xs]]: evaluated left to right, the first exception
    aborts the comprehension. *)
Fixpoint map_res {A B} (f : A -> Result B) (xs : list A) : Result (list B) :=
  match xs with
  | [] => ret []
  | x :: xs' => y <- f x ;; ys <- map_res f xs' ;; ret (y :: ys)
  end.

(** ** Python numbers *)

(** A number: an [int] or a [float]. *)
Inductive PyNum : Type :=
| NInt (z : Z)
| NFloat (f : F64.t).

(** The numeric view of a value: [bool] is a subclass of [int]; strings,
    [None] and dictionaries are not numbers. *)
Definition py_num (v : PyVal) : option PyNum :=
  match v with
  | VInt z => Some (NInt z)
  | VFloat f => Some (NFloat f)
  | VBool b => Some (NInt (if b then 1 else 0)%Z)
  | VStr _ | VNone | VDict => None
  end.

Definition pynum_val (n : PyNum) : PyVal :=
  match n with NInt z => VInt z | NFloat f => VFloat f end.

(** [float(n)]: an [int] that rounds beyond the largest double raises
    [OverflowError]. *)
Definition to_float (n : PyNum) : Result F64.t :=
  match n with
  | NInt z =>
      match F64.of_Z z with
      | F64.Inf _ => raise OverflowError
      | f => ret f
      end
  | NFloat f => ret f
  end.

(** Mixed arithmetic converts the [int] operand to [float]. *)
Definition float_binop (op : F64.t -> F64.t -> F64.t) (a b : PyNum) : Result PyNum :=
  x <- to_float a ;; y <- to_float b ;; ret (NFloat (op x y)).

(** [a + b], [a - b], [a * b] *)
Definition py_add (a b : PyNum) : Result PyNum :=
  match a, b with
  | NInt x, NInt y => ret (NInt (x + y))
  | _, _ => float_binop F64.add a b
  end.

Definition py_sub (a b : PyNum) : Result PyNum :=
  match a, b with
  | NInt x, NInt y => ret (NInt (x - y))
  | _, _ => float_binop F64.sub a b
  end.

Definition py_mul (a b : PyNum) : Result PyNum :=
  match a, b with
  | NInt x, NInt y => ret (NInt (x * y))
  | _, _ => float_binop F64.mul a b
  end.

(** [a / b]: of two [int]s, the correctly rounded quotient
    ([OverflowError] beyond the largest double). *)
Definition py_truediv (a b : PyNum) : Result F64.t :=
  match a, b with
  | NInt x, NInt y =>
      if (y =? 0)%Z then raise ZeroDivisionError
      else match F64.round (inject_Z x / inject_Z y) with
           | F64.Inf _ => raise OverflowError
           | f => ret f
           end
  | _, _ =>
      x <- to_float a ;; y <- to_float b ;;
      if F64.is_zero y then raise ZeroDivisionError else ret (F64.div x y)
  end.

(** [vx // wx] on floats, CPython's [_float_div_mod]. *)
Definition float_floordiv (vx wx : F64.t) : F64.t :=
  let md := F64.fmod vx wx in
  let dv := F64.div (F64.sub vx md) wx in
  let dv := if negb (F64.is_zero md) &&
               negb (Bool.eqb (F64.lt wx (F64.Fin 0)) (F64.lt md (F64.Fin 0)))
            then F64.sub dv (F64.Fin 1) else dv in
  if F64.is_zero dv then F64.Fin 0
  else
    let fd := F64.floor dv in
    if F64.lt (F64.Fin (1 # 2)) (F64.sub dv fd) then F64.add fd (F64.Fin 1) else fd.

(** [a // b] *)
Definition py_floordiv (a b : PyNum) : Result PyNum :=
  match a, b with
  | NInt x, NInt y =>
      if (y =? 0)%Z then raise ZeroDivisionError else ret (NInt (x / y)%Z)
  | _, _ =>
      x <- to_float a ;; y <- to_float b ;;
      if F64.is_zero y then raise ZeroDivisionError
      else ret (NFloat (float_floordiv x y))
  end.

(** An [int] and a [float] compare by their exact values. *)
Definition num_value (n : PyNum) : F64.t :=
  match n with NInt z => F64.Fin (inject_Z z) | NFloat f => f end.

Definition num_cmp (a b : PyNum) : option comparison :=
  F64.cmp (num_value a) (num_value b).

(** [a > b], [a >= b] *)
Definition num_gt (a b : PyNum) : bool :=
  match num_cmp a b with Some Gt => true | _ => false end.
Definition num_ge (a b : PyNum) : bool :=
  match num_cmp a b with Some Gt | Some Eq => true | _ => false end.

(** ** numpy arrays *)

Module NumPy.

(** The dtype [np.array] discovers for a list: [bool], [int64], [uint64],
    [float64] or [object]. *)
Inductive Kind : Type := KBool | KInt64 | KUInt64 | KFloat64 | KObject.

Definition in_int64 (z : Z) : bool := (- 2 ^ 63 <=? z)%Z && (z <? 2 ^ 63)%Z.
Definition in_uint64 (z : Z) : bool := (0 <=? z)%Z && (z <? 2 ^ 64)%Z.

(** The dtype of one value: a Python [int] is [int64] when it fits, else
    [uint64] when it fits, else [object]. *)
Definition kind_of (v : PyVal) : Kind :=
  match v with
  | VBool _ => KBool
  | VInt z => if in_int64 z then KInt64 else if in_uint64 z then KUInt64 else KObject
  | VFloat _ => KFloat64
  | VStr _ | VNone | VDict => KObject
  end.

(** [np.result_type]: [int64] with [uint64] gives [float64]. *)
Definition promote (a b : Kind) : Kind :=
  match a, b with
  | KObject, _ | _, KObject => KObject
  | KFloat64, _ | _, KFloat64 => KFloat64
  | KInt64, KUInt64 | KUInt64, KInt64 => KFloat64
  | KInt64, _ | _, KInt64 => KInt64
  | KUInt64, _ | _, KUInt64 => KUInt64
  | KBool, KBool => KBool
  end.

(** The dtype of a list; an empty list gives [float64]. *)
Definition array_kind (vs : list PyVal) : Kind :=
  match vs with
  | [] => KFloat64
  | v :: vs' => fold_left (fun k w => promote k (kind_of w)) vs' (kind_of v)
  end.

Inductive NdArray : Type :=
| ABool (l : list bool)
| AInt64 (l : list Z)
| AUInt64 (l : list Z)
| AFloat64 (l : list F64.t)
| AObject (l : list PyNum).

Definition arr_length (a : NdArray) : nat :=
  match a with
  | ABool l => List.length l
  | AInt64 l | AUInt64 l => List.length l
  | AFloat64 l => List.length l
  | AObject l => List.length l
  end.

Definition int_of (n : PyNum) : Z := match n with NInt z => z | NFloat _ => 0%Z end.
Definition float_of (n : PyNum) : F64.t :=
  match n with NInt z => F64.of_Z z | NFloat f => f end.

(** [np.array(values)] as a numeric reduction consumes it: a value that
    is not a number makes the reduction raise [TypeError] (numpy raises
    it from the ufunc, after building a string or object array). *)
Definition np_array (vs : list PyVal) : Result NdArray :=
  ns <- map_res (fun v => match py_num v with
                          | Some n => ret n
                          | None => raise TypeError
                          end) vs ;;
  ret (match array_kind vs with
       | KBool => ABool (map (fun n => negb (int_of n =? 0)%Z) ns)
       | KInt64 => AInt64 (map int_of ns)
       | KUInt64 => AUInt64 (map int_of ns)
       | KFloat64 => AFloat64 (map float_of ns)
       | KObject => AObject ns
       end).

Definition bool_f (b : bool) : F64.t := if b then F64.Fin 1 else F64.Fin 0.
Definition len_f (n : nat) : F64.t := F64.of_Z (Z.of_nat n).

(** *** Pairwise summation ([pairwise_sum] of numpy's [loops_utils]) *)

(** [r[j] += a[i + j]] for one block of 8 *)
Definition vadd (r b : list F64.t) : list F64.t :=
  map (fun p => F64.add (fst p) (snd p)) (combine r b).

Fixpoint blocks (fuel : nat) (r xs : list F64.t) : list F64.t :=
  match fuel with
  | O => r
  | S f =>
      match xs with
      | [] => r
      | _ => blocks f (vadd r (firstn 8 xs)) (skipn 8 xs)
      end
  end.

Definition seq_sum (acc : F64.t) (xs : list F64.t) : F64.t := fold_left F64.add xs acc.

(** [8 <= n <= 128]: eight running sums over the blocks, combined in a
    tree, then the remainder added in order. *)
Definition block_sum (xs : list F64.t) : F64.t :=
  let n := List.length xs in
  let m := (n - n mod 8)%nat in
  let body := firstn (m - 8) (skipn 8 xs) in
  let r := blocks (List.length body) (firstn 8 xs) body in
  let g j := nth j r (F64.Fin 0) in
  let res := F64.add (F64.add (F64.add (g 0%nat) (g 1%nat)) (F64.add (g 2%nat) (g 3%nat)))
                     (F64.add (F64.add (g 4%nat) (g 5%nat)) (F64.add (g 6%nat) (g 7%nat))) in
  seq_sum res (skipn m xs).

Fixpoint pairwise (fuel : nat) (xs : list F64.t) : F64.t :=
  match fuel with
  | O => F64.Fin 0
  | S f =>
      let n := List.length xs in
      if (n <? 8)%nat then seq_sum (F64.Fin 0) xs
      else if (n <=? 128)%nat then block_sum xs
      else
        let n2 := (n / 2 - (n / 2) mod 8)%nat in
        F64.add (pairwise f (firstn n2 xs)) (pairwise f (skipn n2 xs))
  end.

Definition pairwise_sum (xs : list F64.t) : F64.t := pairwise (List.length xs) xs.

(** [np.add.reduce] of a [float64] array: the identity [0] plus the
    pairwise sum. *)
Definition sum_nocast (xs : list F64.t) : F64.t := F64.add (F64.Fin 0) (pairwise_sum xs).

(** numpy's default buffer size. *)
Definition BUFSIZE : nat := Z.to_nat 8192.

(** With [dtype=float64] on a [bool] or integer array the inner loop sees
    buffers of [BUFSIZE] converted values, each summed pairwise into the
    accumulator. *)
Fixpoint chunks (fuel : nat) (acc : F64.t) (xs : list F64.t) : F64.t :=
  match fuel with
  | O => acc
  | S f =>
      match xs with
      | [] => acc
      | _ => chunks f (F64.add acc (pairwise_sum (firstn BUFSIZE xs))) (skipn BUFSIZE xs)
      end
  end.

Definition sum_cast (xs : list F64.t) : F64.t := chunks (List.length xs) (F64.Fin 0) xs.

(** Python's left fold [x0 + x1 + ...], used by [np.add.reduce] on an
    [object] array. *)
Fixpoint py_fold (acc : PyNum) (xs : list PyNum) : Result PyNum :=
  match xs with
  | [] => ret acc
  | x :: xs' => acc' <- py_add acc x ;; py_fold acc' xs'
  end.

(** *** [np.mean] *)

(** On an [object] array the sum [S] is a Python number and the mean is
    [S / np.intp(n)]: an [int] sum outside [int64] raises
    [OverflowError]. *)
Definition np_mean (a : NdArray) : Result F64.t :=
  match a with
  | ABool l => ret (F64.div (sum_cast (map bool_f l)) (len_f (List.length l)))
  | AInt64 l | AUInt64 l => ret (F64.div (sum_cast (map F64.of_Z l)) (len_f (List.length l)))
  | AFloat64 l => ret (F64.div (sum_nocast l) (len_f (List.length l)))
  | AObject [] => ret F64.NaN
  | AObject (x :: xs) =>
      s <- py_fold x xs ;;
      match s with
      | NInt z =>
          if in_int64 z then ret (F64.div (F64.of_Z z) (len_f (S (List.length xs))))
          else raise OverflowError
      | NFloat f => ret (F64.div f (len_f (S (List.length xs))))
      end
  end.

(** *** [np.std] (population, [ddof=0]) *)

(** [sqrt(sum((x - mean)**2) / n)] with [mean] computed as [np.mean]. *)
Definition std_f64 (xs : list F64.t) (m : F64.t) : F64.t :=
  let d := map (fun x => F64.sub x m) xs in
  F64.sqrt (F64.div (sum_nocast (map (fun y => F64.mul y y) d)) (len_f (List.length xs))).

(** On an [object] array, [arrmean] is the Python quotient [S / n], the
    deviations and their squares are Python [float]s, summed left to
    right. *)
Definition np_std (a : NdArray) : Result F64.t :=
  match a with
  | ABool l =>
      let xs := map bool_f l in
      ret (std_f64 xs (F64.div (sum_cast xs) (len_f (List.length l))))
  | AInt64 l | AUInt64 l =>
      let xs := map F64.of_Z l in
      ret (std_f64 xs (F64.div (sum_cast xs) (len_f (List.length l))))
  | AFloat64 l => ret (std_f64 l (F64.div (sum_nocast l) (len_f (List.length l))))
  | AObject [] => ret F64.NaN
  | AObject (x :: xs) =>
      s <- py_fold x xs ;;
      m <- py_truediv s (NInt (Z.of_nat (S (List.length xs)))) ;;
      ds <- map_res (fun y => d <- py_sub y (NFloat m) ;; py_mul d d) (x :: xs) ;;
      ss <- py_fold (hd (NInt 0) ds) (tl ds) ;;
      v <- to_float ss ;;
      ret (F64.sqrt (F64.div v (len_f (S (List.length xs)))))
  end.

(** *** [arr.max() > rhs] *)

(** [np.maximum]: NaN propagates. *)
Definition f64_max (a b : F64.t) : F64.t :=
  if F64.is_nan a then a else if F64.is_nan b then b
  else if F64.lt a b then b else a.

(** [np.maximum] on objects: [a if a >= b else b]. *)
Definition obj_max (a b : PyNum) : PyNum := if num_ge a b then a else b.

Definition zero_size_max : string :=
  "zero-size array to reduction operation maximum which has no identity".

(** The maximum compared with a Python [float]: as [float64], except on an
    [object] array where the Python objects compare exactly. *)
Definition np_max_gt (a : NdArray) (rhs : F64.t) : Result bool :=
  match a with
  | ABool [] | AInt64 [] | AUInt64 [] | AFloat64 [] | AObject [] =>
      raise (ValueError zero_size_max)
  | ABool l => ret (F64.lt rhs (bool_f (existsb (fun b => b) l)))
  | AInt64 (x :: xs) | AUInt64 (x :: xs) =>
      ret (F64.lt rhs (F64.of_Z (fold_left Z.max xs x)))
  | AFloat64 (x :: xs) => ret (F64.lt rhs (fold_left f64_max xs x))
  | AObject (x :: xs) => ret (num_gt (fold_left obj_max xs x) (NFloat rhs))
  end.

(** *** [np.percentile(a, p)], "linear" method *)

Fixpoint insert_by {A} (le : A -> A -> bool) (x : A) (l : list A) : list A :=
  match l with
  | [] => [x]
  | y :: ys => if le x y then x :: l else y :: insert_by le x ys
  end.

Definition sort_by {A} (le : A -> A -> bool) (l : list A) : list A :=
  fold_right (insert_by le) [] l.

(** [float64] order with NaN last. *)
Definition f64_sort_le (a b : F64.t) : bool :=
  if F64.is_nan b then true else if F64.is_nan a then false else F64.le a b.

Definition obj_le (a b : PyNum) : bool :=
  match num_cmp a b with Some Gt => false | _ => true end.

(** [arr[i]], with [-1] the last element. *)
Definition at_index {A} (d : A) (l : list A) (i : Z) : A :=
  if (i <? 0)%Z then nth (Z.to_nat (Z.of_nat (List.length l) + i)) l d
  else nth (Z.to_nat i) l d.

(** The virtual index [v = (n - 1) * (p / 100)], the neighbours'
    indices from [_get_indexes] (the clip to [0] below the range is
    applied last, so it wins) and [gamma = v - previous]. *)
Definition pct_setup (n p : Z) : Z * Z * F64.t :=
  let q := F64.div (F64.of_Z p) (F64.of_Z 100) in
  let v := F64.mul (F64.of_Z (n - 1)) q in
  let ij :=
    if F64.lt v (F64.Fin 0) then (0, 0)%Z
    else if F64.le (F64.of_Z (n - 1)) v then (-1, -1)%Z
    else (F64.floor_Z v, F64.floor_Z v + 1)%Z in
  (fst ij, snd ij, F64.sub v (F64.of_Z (fst ij))).

(** [_lerp(a, b, t)]: [a + diff * t], replaced by [b - diff * (1 - t)]
    where [t >= 0.5]. *)
Definition lerp (a b diff t : F64.t) : F64.t :=
  if F64.le (F64.Fin (1 # 2)) t
  then F64.sub b (F64.mul diff (F64.sub (F64.Fin 1) t))
  else F64.add a (F64.mul diff t).

(** [b - a] in [int64], wrapping around. *)
Definition wrap64 (d : Z) : Z := ((d + 2 ^ 63) mod 2 ^ 64 - 2 ^ 63)%Z.

Definition np_percentile (a : NdArray) (p : Z) : Result F64.t :=
  let n := Z.of_nat (arr_length a) in
  if (n =? 0)%Z then raise IndexError
  else
    let '(i, j, t) := pct_setup n p in
    match a with
    | ABool _ => raise TypeError
    | AInt64 l =>
        let s := sort_by Z.leb l in
        let x := at_index 0%Z s i in
        let y := at_index 0%Z s j in
        ret (lerp (F64.of_Z x) (F64.of_Z y) (F64.of_Z (wrap64 (y - x))) t)
    | AUInt64 l =>
        let s := sort_by Z.leb l in
        let x := at_index 0%Z s i in
        let y := at_index 0%Z s j in
        ret (lerp (F64.of_Z x) (F64.of_Z y) (F64.of_Z ((y - x) mod 2 ^ 64)) t)
    | AFloat64 l =>
        let s := sort_by f64_sort_le l in
        let x := at_index (F64.Fin 0) s i in
        let y := at_index (F64.Fin 0) s j in
        let r := lerp x y (F64.sub y x) t in
        if F64.is_nan (last s (F64.Fin 0)) then ret F64.NaN else ret r
    | AObject l =>
        let s := sort_by obj_le l in
        let x := at_index (NInt 0) s i in
        let y := at_index (NInt 0) s j in
        diff <- py_sub y x ;;
        d1 <- py_mul diff (NFloat t) ;;
        r1 <- py_add x d1 ;;
        d2 <- py_mul diff (NFloat (F64.sub (F64.Fin 1) t)) ;;
        r <- (if F64.le (F64.Fin (1 # 2)) t then py_sub y d2 else ret r1) ;;
        to_float r
    end.

End NumPy.

Import NumPy.

(** ** Data model ([models.py]) *)

(** A [datetime]: timezone aware (UTC) or naive, in microseconds.
    [TsNone] is a Python [None] stored in the [timestamp] attribute. *)
Inductive Timestamp : Type :=
| TsAware (us : Z)
| TsNaive (us : Z)
| TsNone.

(** An object passed where a [LogEvent] is expected.  [None] in a field
    means the attribute is missing. *)
Record LogEvent : Type := mkEvent {
  timestamp : option Timestamp;
  user_id : option PyVal;
  latency_ms : option PyVal;
  tokens_used : option PyVal;
  is_error : option PyVal
}.

(** [event.attr]: missing attributes raise [AttributeError]. *)
Definition getattr {A} (a : option A) : Result A :=
  match a with Some v => ret v | None => raise AttributeError end.

(** A [LogEvent] as pydantic builds it: every field present and typed. *)
Definition valid_event (ts : Z) (user : string) (lat tok : Z) (err : bool)
  : LogEvent :=
  mkEvent (Some (TsAware ts)) (Some (VStr user)) (Some (VInt lat))
          (Some (VInt tok)) (Some (VBool err)).

(** ** Sliding window ([sliding_window.py]) *)

Module SlidingWindow.

(** [WINDOW_MINUTES = 2]; [timedelta(minutes=WINDOW_MINUTES)] in
    microseconds. *)
Definition WINDOW_MINUTES : Z := 2.
Definition window_us : Z := WINDOW_MINUTES * 60 * 1000000.

(** [self.events[0].timestamp < cutoff_time], with [cutoff_time] aware
    (UTC).  Comparing a naive datetime or [None] with it raises
    [TypeError]. *)
Definition ts_lt (ts : option Timestamp) (cutoff : Z) : Result bool :=
  t <- getattr ts ;;
  match t with
  | TsAware us => ret (us <? cutoff)%Z
  | TsNaive _ | TsNone => raise TypeError
  end.

(** The deque state is threaded explicitly: a method returns the new
    deque together with its outcome, since a failing method keeps the
    mutations done before the exception. *)
Definition State := list LogEvent.

(** [while self.events and self.events[0].timestamp < cutoff_time:
        self.events.popleft()] *)
Fixpoint evict_loop (cutoff : Z) (q : State) : State * option exn :=
  match q with
  | [] => ([], None)
  | e :: rest =>
      match ts_lt (timestamp e) cutoff with
      | inr true => evict_loop cutoff rest
      | inr false => (q, None)
      | inl x => (q, Some x)
      end
  end.

(** [_evict_old_events], with [datetime.now(timezone.utc)] as [now]. *)
Definition _evict_old_events (now : Z) (q : State) : State * option exn :=
  evict_loop (now - window_us)%Z q.

(** [add]: the [None] check is outside the [try]; everything raised
    inside it becomes [RuntimeError]. *)
Definition add (now : Z) (event : LogEvent) (q : State)
  : State * Result unit :=
  match timestamp event with
  | None => (q, raise AttributeError)
  | Some TsNone => (q, raise (ValueError "LogEvent timestamp cannot be None"))
  | Some _ =>
      let q1 := (q ++ [event])%list in
      match _evict_old_events now q1 with
      | (q2, None) => (q2, ret tt)
      | (q2, Some _) => (q2, raise (RuntimeError "Sliding window update failed"))
      end
  end.

(** [get_events]: sweep, then [list(self.events)]. *)
Definition get_events (now : Z) (q : State) : State * Result (list LogEvent) :=
  match _evict_old_events now q with
  | (q2, None) => (q2, ret q2)
  | (q2, Some _) =>
      (q2, raise (RuntimeError "Failed to retrieve sliding window events"))
  end.

(** A run of [add] calls, each with the clock reading at the call;
    stops at the first failing call. *)
Fixpoint add_all (q : State) (xs : list (Z * LogEvent)) : State * Result unit :=
  match xs with
  | [] => (q, ret tt)
  | (now, e) :: xs' =>
      match add now e q with
      | (q', inr _) => add_all q' xs'
      | (q', inl x) => (q', inl x)
      end
  end.

End SlidingWindow.

(** ** Ingest endpoint ([main.py]) *)

(** HTTP outcome of an endpoint. *)
Inductive Http (A : Type) : Type :=
| HttpOk (code : Z) (body : A)
| HttpError (code : Z) (detail : string).
Arguments HttpOk {A}.
Arguments HttpError {A}.

(** [ingest_log]: [ValueError] becomes 400 with its message, any other
    exception 500. *)
Definition ingest_log (now : Z) (event : LogEvent) (q : SlidingWindow.State)
  : SlidingWindow.State * Http string :=
  match SlidingWindow.add now event q with
  | (q', inr _) => (q', HttpOk 201 "ok")
  | (q', inl (ValueError msg)) => (q', HttpError 400 msg)
  | (q', inl _) => (q', HttpError 500 "Failed to ingest log event")
  end.

(** ** Metrics aggregator ([metrics.py]) *)

Module Metrics.

(** [TOKEN_COST_PER_1K = 0.002] *)
Definition TOKEN_COST_PER_1K : F64.t := F64.round (2 # 1000).

Record Metrics : Type := mkMetrics {
  requests_per_min : Z;
  avg_latency : F64.t;
  p50_latency : F64.t;
  p95_latency : F64.t;
  p99_latency : F64.t;
  error_rate : F64.t;
  tokens_per_min : PyNum;
  estimated_cost_usd : F64.t;
  per_user_requests : list (PyVal * Z)
}.

(** The returned dictionary: [{}] or the full metrics. *)
Inductive MetricsOut : Type :=
| MetricsEmpty
| MetricsDict (m : Metrics).

(** [sum(event.f for event in events)]: the generator reads the attribute
    and adds it, event by event, to the running total (from [0]). *)
Fixpoint py_sum (f : LogEvent -> option PyVal) (acc : PyNum) (es : list LogEvent)
  : Result PyNum :=
  match es with
  | [] => ret acc
  | e :: es' =>
      v <- getattr (f e) ;;
      match py_num v with
      | Some n => acc' <- py_add acc n ;; py_sum f acc' es'
      | None => raise TypeError
      end
  end.

(** Dictionary key equality: numbers compare by value ([1 == 1.0 == True]);
    a NaN key equals no other key (object identity is not modelled). *)
Definition key_eqb (v w : PyVal) : bool :=
  match py_num v, py_num w with
  | Some a, Some b =>
      match num_cmp a b with Some Eq => true | _ => false end
  | _, _ =>
      match v, w with
      | VStr s, VStr t => String.eqb s t
      | VNone, VNone => true
      | _, _ => false
      end
  end.

(** A value usable as a dictionary key. *)
Definition hashable (v : PyVal) : bool :=
  match v with VDict => false | _ => true end.

(** [per_user_requests[k] += 1] on a [defaultdict(int)], insertion
    ordered. *)
Fixpoint dict_incr (d : list (PyVal * Z)) (k : PyVal) : list (PyVal * Z) :=
  match d with
  | [] => [(k, 1%Z)]
  | (k', c) :: d' =>
      if key_eqb k' k then (k', (c + 1)%Z) :: d' else (k', c) :: dict_incr d' k
  end.

(** The counting loop; an unhashable key raises [TypeError]. *)
Fixpoint count_users (d : list (PyVal * Z)) (es : list LogEvent)
  : Result (list (PyVal * Z)) :=
  match es with
  | [] => ret d
  | e :: es' =>
      u <- getattr (user_id e) ;;
      if hashable u then count_users (dict_incr d u) es' else raise TypeError
  end.

(** Body of the [try] block, in the order the dictionary literal evaluates
    its entries. *)
Definition compute_try (events : list LogEvent) (window_minutes : Z)
  : Result Metrics :=
  latencies_ms <- map_res (fun e => getattr (latency_ms e)) events ;;
  let total_requests := Z.of_nat (List.length events) in
  total_errors <- py_sum is_error (NInt 0) events ;;
  total_tokens <- py_sum tokens_used (NInt 0) events ;;
  per_user <- count_users [] events ;;
  let rpm := (total_requests / window_minutes)%Z in
  arr <- np_array latencies_ms ;;
  avg <- np_mean arr ;;
  p50 <- np_percentile arr 50 ;;
  p95 <- np_percentile arr 95 ;;
  p99 <- np_percentile arr 99 ;;
  er <- py_truediv total_errors (NInt total_requests) ;;
  tpm <- py_floordiv total_tokens (NInt window_minutes) ;;
  c1 <- py_truediv total_tokens (NInt 1000) ;;
  ret (mkMetrics rpm avg p50 p95 p99 er tpm (F64.mul c1 TOKEN_COST_PER_1K) per_user).

(** [compute_metrics(events, window_minutes)]: the two guard clauses,
    then the [try] block whose [AttributeError] becomes
    [ValueError("Invalid log event structure")] and whose other
    exceptions become [RuntimeError]. *)
Definition compute_metrics (events : list LogEvent) (window_minutes : Z)
  : Result MetricsOut :=
  match events with
  | [] => ret MetricsEmpty
  | _ =>
      if (window_minutes <=? 0)%Z
      then raise (ValueError "window_minutes must be a positive integer")
      else
        match compute_try events window_minutes with
        | inr m => ret (MetricsDict m)
        | inl AttributeError => raise (ValueError "Invalid log event structure")
        | inl _ => raise (RuntimeError "Metric computation failed")
        end
  end.

End Metrics.

(** ** Anomaly detector ([anomalies.py]) *)

Module Anomalies.

Definition MIN_EVENTS_FOR_ANALYSIS : nat := 5.
Definition LATENCY_STD_MULTIPLIER : Z := 3.
(** [MAX_ERROR_RATE = 0.10], the double nearest to [1/10]. *)
Definition MAX_ERROR_RATE : F64.t := F64.round (1 # 10).

Definition CRITICAL_LATENCY : string := "CRITICAL: Latency spike detected".
Definition WARNING_ERROR_RATE : string := "WARNING: High error rate detected".
Definition ERROR_DETECTION : string := "ERROR: Anomaly detection failed".

(** The [metrics] argument: a dictionary, or an object without [.get]. *)
Inductive MetricsArg : Type :=
| MetricsObj (d : list (string * PyVal))
| MetricsNoGet.

(** [metrics.get(key, default)] *)
Definition metrics_get (m : MetricsArg) (key : string) (default : PyVal)
  : Result PyVal :=
  match m with
  | MetricsNoGet => raise AttributeError
  | MetricsObj d =>
      match find (fun kv => String.eqb (fst kv) key) d with
      | Some (_, v) => ret v
      | None => ret default
      end
  end.

(** [v > threshold] for a Python [float] threshold: [TypeError] when [v]
    is not a number. *)
Definition py_gt (v : PyVal) (threshold : F64.t) : Result bool :=
  match py_num v with
  | Some n => ret (num_gt n (NFloat threshold))
  | None => raise TypeError
  end.

(** The try block mutates the local list [anomalies]; an exception keeps
    what was appended before it.  [PyM] threads that list. *)
Definition PyM (A : Type) := list string -> list string * Result A.

Definition mret {A} (a : A) : PyM A := fun s => (s, inr a).
Definition lift {A} (r : Result A) : PyM A := fun s => (s, r).
Definition mbind {A B} (m : PyM A) (k : A -> PyM B) : PyM B :=
  fun s => match m s with
           | (s', inr a) => k a s'
           | (s', inl e) => (s', inl e)
           end.
(** [anomalies.append(msg)] *)
Definition append (msg : string) : PyM unit :=
  fun s => ((s ++ [msg])%list, inr tt).

Notation "x <~ m ;; k" := (mbind m (fun x => k))
  (at level 61, m at next level, right associativity) : py_scope.

(** [np.array([event.latency_ms for event in events])]: the comprehension
    reads every attribute first. *)
Definition latencies_of (events : list LogEvent) : Result NdArray :=
  raw <- map_res (fun e => getattr (latency_ms e)) events ;;
  np_array raw.

(** [latencies.max() > mean_latency + (LATENCY_STD_MULTIPLIER * std_latency)]
    with [mean_latency = float(np.mean(latencies))] and
    [std_latency = float(np.std(latencies))]. *)
Definition latency_spike (events : list LogEvent) : Result bool :=
  latencies <- latencies_of events ;;
  mean_latency <- np_mean latencies ;;
  std_latency <- np_std latencies ;;
  np_max_gt latencies
    (F64.add mean_latency (F64.mul (F64.of_Z LATENCY_STD_MULTIPLIER) std_latency)).

Definition detect_try (events : list LogEvent) (metrics : MetricsArg) : PyM unit :=
  spike <~ lift (latency_spike events) ;;
  _ <~ (if spike then append CRITICAL_LATENCY else mret tt) ;;
  error_rate <~ lift (metrics_get metrics "error_rate" (VFloat (F64.Fin 0))) ;;
  high <~ lift (py_gt error_rate MAX_ERROR_RATE) ;;
  if high then append WARNING_ERROR_RATE else mret tt.

(** [detect_anomalies(events, metrics)]: the guard clause, then the try
    block; [AttributeError] becomes [ValueError], any other exception
    appends the degraded entry to what was already found. *)
Definition detect_anomalies (events : list LogEvent) (metrics : MetricsArg)
  : Result (list string) :=
  match events with
  | [] => ret []
  | _ =>
      if (List.length events <? MIN_EVENTS_FOR_ANALYSIS)%nat then ret []
      else
        match detect_try events metrics [] with
        | (anomalies, inr _) => ret anomalies
        | (_, inl AttributeError) => raise (ValueError "Invalid log event structure")
        | (anomalies, inl _) => ret (anomalies ++ [ERROR_DETECTION])%list
        end
  end.

End Anomalies.

(** ** Metrics endpoint ([main.py]) *)

Module Endpoint.

(** [MetricsResponse]: the metrics fields plus [anomalies]. *)
Record MetricsResponse : Type := mkResponse {
  resp_metrics : Metrics.Metrics;
  anomalies : list string
}.

(** The scalar entries of the dictionary [compute_metrics] returns, as
    [detect_anomalies] receives it.  The nested [per_user_requests]
    dictionary is left out; [detect_anomalies] only reads
    [metrics.get("error_rate", 0.0)]. *)
Definition metrics_dict (m : Metrics.Metrics) : Anomalies.MetricsArg :=
  Anomalies.MetricsObj
    [("requests_per_min", VInt (Metrics.requests_per_min m));
     ("avg_latency", VFloat (Metrics.avg_latency m));
     ("p50_latency", VFloat (Metrics.p50_latency m));
     ("p95_latency", VFloat (Metrics.p95_latency m));
     ("p99_latency", VFloat (Metrics.p99_latency m));
     ("error_rate", VFloat (Metrics.error_rate m));
     ("tokens_per_min", pynum_val (Metrics.tokens_per_min m));
     ("estimated_cost_usd", VFloat (Metrics.estimated_cost_usd m))].

(** pydantic's [ge=0] on a [float] field: NaN fails, [inf] passes. *)
Definition float_ge0 (x : F64.t) : bool := F64.le (F64.Fin 0) x.

(** An [int] field with [ge=0]: a [float] is accepted when it is finite
    and has no fractional part. *)
Definition int_ge0 (n : PyNum) : bool :=
  match n with
  | NInt z => (0 <=? z)%Z
  | NFloat f => F64.is_integral f && F64.le (F64.Fin 0) f
  end.

(** The field constraints of [MetricsResponse]: [ge=0] on every number,
    [le=1.0] on [error_rate], [Dict[str, int]] keys for
    [per_user_requests]. *)
Definition response_valid (m : Metrics.Metrics) : bool :=
  (0 <=? Metrics.requests_per_min m)%Z &&
  float_ge0 (Metrics.avg_latency m) &&
  float_ge0 (Metrics.p50_latency m) &&
  float_ge0 (Metrics.p95_latency m) &&
  float_ge0 (Metrics.p99_latency m) &&
  float_ge0 (Metrics.error_rate m) && F64.le (Metrics.error_rate m) (F64.Fin 1) &&
  int_ge0 (Metrics.tokens_per_min m) &&
  float_ge0 (Metrics.estimated_cost_usd m) &&
  forallb (fun kv => match fst kv with VStr _ => true | _ => false end)
          (Metrics.per_user_requests m).
(** pydantic's [ValidationError] is a [ValueError]; the model keeps the
    title of its message only. *)
Definition response_error : string := "validation error for MetricsResponse".

(** [MetricsResponse] built from the unpacked metrics and [anomalies]. *)
Definition build_response (metrics : Metrics.MetricsOut) (anoms : list string)
  : Result MetricsResponse :=
  match metrics with
  | Metrics.MetricsDict m =>
      if response_valid m then ret (mkResponse m anoms)
      else raise (ValueError response_error)
  | Metrics.MetricsEmpty => raise (ValueError response_error)
  end.

(** [get_metrics]: the window is read first; an empty window is a 404
    (re-raised unchanged); [ValueError] becomes 400 with its message and
    any other exception 500.  [compute_metrics] runs with its default
    [window_minutes=2]. *)
Definition get_metrics (now : Z) (q : SlidingWindow.State)
  : SlidingWindow.State * Http MetricsResponse :=
  let (q', r) := SlidingWindow.get_events now q in
  let outcome :=
    match r with
    | inl x => inl x
    | inr [] => inr (HttpError 404 "No metrics available yet")
    | inr events =>
        match (metrics <- Metrics.compute_metrics events 2 ;;
               let arg := match metrics with
                          | Metrics.MetricsDict m => metrics_dict m
                          | Metrics.MetricsEmpty => Anomalies.MetricsObj []
                          end in
               anoms <- Anomalies.detect_anomalies events arg ;;
               build_response metrics anoms) with
        | inl x => inl x
        | inr resp => inr (HttpOk 200 resp)
        end
    end in
  match outcome with
  | inr h => (q', h)
  | inl (ValueError msg) => (q', HttpError 400 msg)
  | inl _ => (q', HttpError 500 "Failed to compute metrics")
  end.

End Endpoint.

(** ** Dashboard status ([frontend/components/status_box.py]) *)

Module StatusBox.

(** What [fetch_metrics] hands to [render_status]: [None] on a request
    exception, [{}] on a non-200 answer, else the JSON body, of which
    only the [anomalies] entry (possibly absent) is read. *)
Inductive Fetched : Type :=
| FetchFailed
| FetchEmpty
| FetchJson (anomalies : option (list string)).

(** [str.upper()] on ASCII text. *)
Definition upper_ascii (c : Ascii.ascii) : Ascii.ascii :=
  let n := Ascii.nat_of_ascii c in
  if (97 <=? n)%nat && (n <=? 122)%nat then Ascii.ascii_of_nat (n - 32) else c.

Fixpoint upper (s : string) : string :=
  match s with
  | EmptyString => EmptyString
  | String c s' => String (upper_ascii c) (upper s')
  end.

(** [needle in hay] *)
Fixpoint contains (needle hay : string) : bool :=
  String.prefix needle hay ||
  match hay with
  | EmptyString => false
  | String _ hay' => contains needle hay'
  end.

(** The [system_status] computed by [render_status(data)]. *)
Definition render_status (data : Fetched) : string :=
  match data with
  | FetchFailed | FetchEmpty => "IDLE"
  | FetchJson a =>
      let anomalies := match a with Some l => l | None => [] end in
      if existsb (fun alert => contains "CRITICAL" (upper alert)) anomalies
      then "CRITICAL"
      else match anomalies with
           | [] => "HEALTHY"
           | _ => "WARNING"
           end
  end.

End StatusBox.

(** ** Metrics fetch ([frontend/utils/api_client.py]) *)

Module ApiClient.

(** [fetch_metrics()]: the answer of [GET /metrics], or [None] when the
    request raises [RequestException]; the call returns [None] then, the
    JSON body on status 200 and [{}] on any other status. *)
Definition fetch_metrics (answer : option (Http Endpoint.MetricsResponse))
  : StatusBox.Fetched :=
  match answer with
  | None => StatusBox.FetchFailed
  | Some (HttpOk code r) =>
      if (code =? 200)%Z then StatusBox.FetchJson (Some (Endpoint.anomalies r))
      else StatusBox.FetchEmpty
  | Some (HttpError _ _) => StatusBox.FetchEmpty
  end.

End ApiClient.

(** ** The spike condition over the reals *)

(** The latency-spike condition read with exact arithmetic: the maximum
    strictly above [mean + 3 * stddev], the population standard deviation
    being the real square root of the variance.  It is compared below with
    [Anomalies.latency_spike], which computes in binary64. *)
Module Exact.
Local Open Scope Q_scope.

Definition sum (xs : list Q) : Q := fold_left Qplus xs 0.

Definition mean (xs : list Q) : Q :=
  sum xs / inject_Z (Z.of_nat (List.length xs)).

Definition variance (xs : list Q) : Q :=
  let m := mean xs in
  sum (map (fun x => (x - m) * (x - m)) xs) / inject_Z (Z.of_nat (List.length xs)).

Definition qmax (a b : Q) : Q := if Qle_bool a b then b else a.

Definition max (xs : list Q) : Q :=
  match xs with [] => 0 | x :: xs' => fold_left qmax xs' x end.

Definition spike (xs : list Q) : Prop :=
  (Q2R (mean xs) + 3 * sqrt (Q2R (variance xs)) < Q2R (max xs))%R.

End Exact.

(** * Specification predicates *)

(** The event carries a timezone-aware timestamp. *)
Definition aware (e : LogEvent) : Prop :=
  exists t, timestamp e = Some (TsAware t).

(** Admission order: [e1] is not later than [e2]. *)
Definition ts_le (e1 e2 : LogEvent) : Prop :=
  exists t1 t2, timestamp e1 = Some (TsAware t1) /\
                timestamp e2 = Some (TsAware t2) /\ (t1 <= t2)%Z.

(** A present attribute that [sum] adds exactly: missing, or an [int] (a
    [bool] included). *)
Definition int_or_missing (a : option PyVal) : Prop :=
  match a with None => True | Some v => exists z, py_num v = Some (NInt z) end.

(** A present [user_id] is hashable. *)
Definition hashable_or_missing (a : option PyVal) : Prop :=
  match a with None => True | Some v => Metrics.hashable v = true end.

(** The event lacks one of the attributes [compute_metrics] reads. *)
Definition misses_compute_attr (e : LogEvent) : Prop :=
  latency_ms e = None \/ is_error e = None \/ tokens_used e = None \/
  user_id e = None.

(** The event's [is_error] is the boolean [True]. *)
Definition errored (e : LogEvent) : bool :=
  match is_error e with Some (VBool true) => true | _ => false end.

(** The event's [user_id] is the string [u]. *)
Definition user_is (u : string) (e : LogEvent) : bool :=
  match user_id e with Some (VStr v) => String.eqb v u | _ => false end.

(** [per_user_requests.get(u, 0)] on the returned dictionary. *)
Definition user_count (u : string) (d : list (PyVal * Z)) : Z :=
  match find (fun kv => Metrics.key_eqb (fst kv) (VStr u)) d with
  | Some (_, c) => c
  | None => 0%Z
  end.

(** [sum(per_user_requests.values())] *)
Definition dict_total (d : list (PyVal * Z)) : Z :=
  fold_right (fun kv acc => (snd kv + acc)%Z) 0%Z d.

(** An event as the [LogEvent] model types it ([gt=0] latency, [ge=0]
    tokens), with latency and token count at most [2^53]. *)
Definition typed_event (e : LogEvent) : Prop :=
  exists ts user lat tok err, e = valid_event ts user lat tok err /\
    (0 <= lat <= 2 ^ 53)%Z /\ (0 <= tok <= 2 ^ 53)%Z.

(** * Properties *)

Import SlidingWindow Metrics Anomalies.

(** ** Binary64 rounding: exactness and range *)

Section F64Facts.
Local Open Scope Q_scope.

Lemma two_nz : ~ inject_Z 2 == 0.
Proof. intro H. discriminate H. Qed.

Lemma pow2_pos (e : Z) : 0 < F64.pow2 e.
Proof. unfold F64.pow2. apply Qpower_0_lt. reflexivity. Qed.

Lemma pow2_plus (a b : Z) : F64.pow2 (a + b) == F64.pow2 a * F64.pow2 b.
Proof. unfold F64.pow2. apply Qpower_plus, two_nz. Qed.

Lemma pow2_le (a b : Z) : (a <= b)%Z -> F64.pow2 a <= F64.pow2 b.
Proof. intros H. unfold F64.pow2. apply Qpower_le_compat_l; [exact H | discriminate]. Qed.

Lemma pow2_lt (a b : Z) : (a < b)%Z -> F64.pow2 a < F64.pow2 b.
Proof. intros H. unfold F64.pow2. apply Qpower_lt_compat_l; [exact H | reflexivity]. Qed.

Lemma pow2_lt_inv (a b : Z) : F64.pow2 a < F64.pow2 b -> (a < b)%Z.
Proof. intros H. unfold F64.pow2 in H. exact (Qpower_lt_compat_l_inv _ _ _ H eq_refl). Qed.

Lemma pow2_Z (n : Z) : (0 <= n)%Z -> F64.pow2 n == inject_Z (2 ^ n).
Proof. intros H. unfold F64.pow2. symmetry. now apply Zpower_Qpower. Qed.

Lemma pow2_neg (n : Z) : (0 <= n)%Z -> F64.pow2 (- n) * inject_Z (2 ^ n) == 1.
Proof.
  intros H. rewrite <- pow2_Z by exact H. rewrite <- pow2_plus.
  replace (- n + n)%Z with 0%Z by ring. reflexivity.
Qed.

Lemma pow2_0 : F64.pow2 0 == 1.
Proof. reflexivity. Qed.

Lemma frac_eq (a b : Z) : (0 < b)%Z -> inject_Z a / inject_Z b == a # Z.to_pos b.
Proof.
  intros Hb. destruct b as [|b|b]; try lia.
  unfold Qeq, Qdiv, Qmult, Qinv. simpl. ring.
Qed.

Lemma pow2_frac (k : Z) :
  F64.pow2 k == (2 ^ Z.max k 0)%Z # Z.to_pos (2 ^ Z.max (- k) 0).
Proof.
  rewrite <- frac_eq by (apply Z.pow_pos_nonneg; lia).
  replace k with (Z.max k 0 + - Z.max (- k) 0)%Z at 1 by lia.
  rewrite pow2_plus. unfold Qdiv. apply Qmult_comp.
  - apply pow2_Z. lia.
  - unfold F64.pow2. rewrite Qpower_opp. apply Qinv_comp.
    symmetry. apply Zpower_Qpower. lia.
Qed.

Lemma pos_pow2 (n : Z) : (0 <= n)%Z -> Z.pos (Z.to_pos (2 ^ n)) = (2 ^ n)%Z.
Proof. intros H. apply Z2Pos.id. apply Z.pow_pos_nonneg; lia. Qed.

Lemma pow2_le_frac (k p : Z) (d : positive) :
  F64.pow2 k <= p # d <->
  (2 ^ Z.max k 0 * Z.pos d <= p * 2 ^ Z.max (- k) 0)%Z.
Proof.
  rewrite pow2_frac. unfold Qle. simpl. rewrite pos_pow2 by lia. reflexivity.
Qed.

Lemma frac_lt_pow2 (k p : Z) (d : positive) :
  p # d < F64.pow2 k <->
  (p * 2 ^ Z.max (- k) 0 < 2 ^ Z.max k 0 * Z.pos d)%Z.
Proof.
  rewrite pow2_frac. unfold Qlt. simpl. rewrite pos_pow2 by lia. reflexivity.
Qed.

Lemma qlog2_spec (x : Q) :
  ~ x == 0 ->
  F64.pow2 (F64.qlog2 x) <= Qabs x /\ Qabs x < F64.pow2 (F64.qlog2 x + 1).
Proof.
  destruct x as [n d]. intros Hx.
  assert (Hn : n <> 0%Z) by (intros ->; apply Hx; reflexivity).
  unfold F64.qlog2. simpl Qnum; simpl Qden. simpl Qabs.
  rewrite pow2_le_frac, frac_lt_pow2.
  set (p := Z.abs n). set (q := Z.pos d).
  assert (Hp : (0 < p)%Z) by (unfold p; lia).
  assert (Hq : (0 < q)%Z) by (unfold q; lia).
  destruct (Z.log2_spec p Hp) as [Hp1 Hp2].
  destruct (Z.log2_spec q Hq) as [Hq1 Hq2].
  pose proof (Z.log2_nonneg p). pose proof (Z.log2_nonneg q).
  set (lp := Z.log2 p) in *. set (lq := Z.log2 q) in *.
  rewrite Z.pow_succ_r in Hp2, Hq2 by lia.
  destruct (0 <=? lp - lq)%Z eqn:Ha.
  - apply Z.leb_le in Ha.
    assert (Hlp : (2 ^ lp = 2 ^ (lp - lq) * 2 ^ lq)%Z)
      by (rewrite <- Z.pow_add_r by lia; f_equal; ring).
    destruct (q * 2 ^ (lp - lq) <=? p)%Z eqn:Hc.
    + apply Z.leb_le in Hc.
      rewrite (Z.max_l (lp - lq)), (Z.max_r (- (lp - lq))) by lia.
      rewrite (Z.max_l (lp - lq + 1)), (Z.max_r (- (lp - lq + 1))) by lia.
      rewrite Z.pow_add_r by lia. simpl (2 ^ 0)%Z. simpl (2 ^ 1)%Z.
      split; nia.
    + apply Z.leb_gt in Hc.
      destruct (Z.eq_dec (lp - lq) 0) as [Hz|Hz].
      * assert (Hpq : lp = lq) by lia.
        rewrite Hz in Hc |- *. change (2 ^ 0)%Z with 1%Z in Hc.
        change (Z.max (0 - 1) 0) with 0%Z. change (Z.max (- (0 - 1)) 0) with 1%Z.
        change (Z.max (- (0 - 1 + 1)) 0) with 0%Z. change (Z.max (0 - 1 + 1) 0) with 0%Z.
        change (2 ^ 0)%Z with 1%Z. change (2 ^ 1)%Z with 2%Z.
        rewrite <- Hpq in Hq2. fold q. split; nia.
      * rewrite (Z.max_l (lp - lq - 1)), (Z.max_r (- (lp - lq - 1))) by lia.
        replace (lp - lq - 1 + 1)%Z with (lp - lq)%Z by ring.
        rewrite (Z.max_l (lp - lq)), (Z.max_r (- (lp - lq))) by lia.
        assert (Hlp' : (2 ^ (lp - lq) = 2 * 2 ^ (lp - lq - 1))%Z)
          by (rewrite <- Z.pow_succ_r by lia; f_equal; unfold Z.succ; ring).
        simpl (2 ^ 0)%Z. split; nia.
  - apply Z.leb_gt in Ha.
    set (b := (- (lp - lq))%Z).
    assert (Hb : (0 < b)%Z) by (unfold b; lia).
    assert (Hlq : (2 ^ lq = 2 ^ b * 2 ^ lp)%Z)
      by (rewrite <- Z.pow_add_r by lia; f_equal; unfold b; ring).
    destruct (q <=? p * 2 ^ b)%Z eqn:Hc.
    + apply Z.leb_le in Hc.
      rewrite (Z.max_r (lp - lq)), (Z.max_l (- (lp - lq))) by lia. fold b.
      destruct (Z.eq_dec b 1) as [H1|H1].
      * replace (lp - lq + 1)%Z with 0%Z by (unfold b in H1; lia).
        simpl Z.max. simpl (2 ^ 0)%Z. rewrite H1 in *. simpl (2 ^ 1)%Z in *.
        split; nia.
      * rewrite (Z.max_r (lp - lq + 1)), (Z.max_l (- (lp - lq + 1))) by lia.
        replace (- (lp - lq + 1))%Z with (b - 1)%Z by (unfold b; ring).
        assert (Hb' : (2 ^ b = 2 * 2 ^ (b - 1))%Z)
          by (rewrite <- Z.pow_succ_r by lia; f_equal; unfold Z.succ; ring).
        simpl (2 ^ 0)%Z. split; nia.
    + apply Z.leb_gt in Hc.
      rewrite (Z.max_r (lp - lq - 1)), (Z.max_l (- (lp - lq - 1))) by lia.
      replace (- (lp - lq - 1))%Z with (b + 1)%Z by (unfold b; ring).
      replace (lp - lq - 1 + 1)%Z with (- b)%Z by (unfold b; ring).
      rewrite (Z.max_r (- b)), (Z.max_l (- - b)) by lia.
      replace (- - b)%Z with b by ring.
      rewrite Z.pow_add_r by lia. simpl (2 ^ 0)%Z. simpl (2 ^ 1)%Z.
      split; nia.
Qed.

Lemma qlog2_lt (x y : Q) :
  ~ x == 0 -> ~ y == 0 -> Qabs x <= Qabs y -> (F64.qlog2 x <= F64.qlog2 y)%Z.
Proof.
  intros Hx Hy Hxy.
  destruct (qlog2_spec x Hx) as [Hx1 _]. destruct (qlog2_spec y Hy) as [_ Hy2].
  assert (H : F64.pow2 (F64.qlog2 x) < F64.pow2 (F64.qlog2 y + 1))
    by (eapply Qle_lt_trans; [exact Hx1|]; eapply Qle_lt_trans; [exact Hxy | exact Hy2]).
  apply pow2_lt_inv in H. lia.
Qed.

Lemma qlog2_comp (x y : Q) : x == y -> ~ x == 0 -> F64.qlog2 x = F64.qlog2 y.
Proof.
  intros H Hx. assert (Hy : ~ y == 0) by (rewrite <- H; exact Hx).
  apply Z.le_antisymm; apply qlog2_lt; auto; rewrite H; apply Qle_refl.
Qed.

Lemma exponent_comp (x y : Q) : x == y -> ~ x == 0 -> F64.exponent x = F64.exponent y.
Proof. intros H Hx. unfold F64.exponent. now rewrite (qlog2_comp x y H Hx). Qed.

Ltac cmp_facts :=
  repeat match goal with
  | H : (_ ?= _) = Lt |- _ => apply Qlt_alt in H
  | H : (_ ?= _) = Gt |- _ => apply Qgt_alt in H
  | H : (_ ?= _) = Eq |- _ => apply Qeq_alt in H
  end.

Lemma rne_bounds (n : Z) (c : comparison) : (n <= F64.rne n c <= n + 1)%Z.
Proof. destruct c; simpl; try lia. destruct (Z.even n); lia. Qed.

Lemma rnd_int_comp (s t : Q) : s == t -> F64.rnd_int s = F64.rnd_int t.
Proof.
  intros H. unfold F64.rnd_int. rewrite (Qfloor_comp s t H).
  f_equal. apply Qcompare_comp; [|reflexivity]. now rewrite H.
Qed.

Lemma rnd_int_mono (s t : Q) : s <= t -> (F64.rnd_int s <= F64.rnd_int t)%Z.
Proof.
  intros H. unfold F64.rnd_int.
  pose proof (Qfloor_resp_le s t H) as Hf.
  set (ns := Qfloor s) in *. set (nt := Qfloor t) in *.
  destruct (Z.eq_dec ns nt) as [E|E].
  - rewrite <- E.
    assert (Hd : s - inject_Z ns <= t - inject_Z ns)
      by (apply Qplus_le_compat; [exact H | apply Qle_refl]).
    destruct (s - inject_Z ns ?= 1 # 2) eqn:Cs;
      destruct (t - inject_Z ns ?= 1 # 2) eqn:Ct; simpl;
      try (destruct (Z.even ns); lia); try lia;
      exfalso; cmp_facts; lra.
  - pose proof (rne_bounds ns (s - inject_Z ns ?= 1 # 2)).
    pose proof (rne_bounds nt (t - inject_Z nt ?= 1 # 2)). lia.
Qed.

Lemma rnd_int_le (s : Q) : inject_Z (F64.rnd_int s) <= s + 1.
Proof.
  unfold F64.rnd_int.
  pose proof (rne_bounds (Qfloor s) (s - inject_Z (Qfloor s) ?= 1 # 2)) as [_ H].
  apply Qle_trans with (inject_Z (Qfloor s + 1)).
  - rewrite <- Zle_Qle. exact H.
  - rewrite inject_Z_plus. apply Qplus_le_compat; [apply Qfloor_le | apply Qle_refl].
Qed.

Lemma rnd_int_Z (k : Z) : F64.rnd_int (inject_Z k) = k.
Proof.
  unfold F64.rnd_int. rewrite Qfloor_Z.
  assert (H : inject_Z k - inject_Z k == 0) by ring.
  rewrite H. reflexivity.
Qed.

Lemma Qred_inject_Z (z : Z) : Qred (inject_Z z) = inject_Z z.
Proof.
  unfold Qred, inject_Z.
  pose proof (Z.ggcd_gcd z 1) as Hg. pose proof (Z.ggcd_correct_divisors z 1) as Hd.
  destruct (Z.ggcd z 1) as [g [a b]]. simpl in Hg. rewrite Z.gcd_1_r in Hg. subst g.
  destruct Hd as [H1 H2]. rewrite Z.mul_1_l in H1, H2. subst. reflexivity.
Qed.

Lemma Qabs_inject_Z (z : Z) : Qabs (inject_Z z) = inject_Z (Z.abs z).
Proof. reflexivity. Qed.

Lemma pow2_cancel (e : Z) (a : Q) : a * F64.pow2 (- e) * F64.pow2 e == a.
Proof.
  rewrite <- Qmult_assoc, <- pow2_plus. replace (- e + e)%Z with 0%Z by lia.
  rewrite pow2_0. ring.
Qed.

Lemma Qltb_false (x : Q) : F64.Qltb x 0 = false -> 0 <= x.
Proof.
  unfold F64.Qltb. intros H. apply negb_false_iff, Qle_bool_iff in H. exact H.
Qed.

Lemma Qltb_true (x : Q) : F64.Qltb x 0 = true -> x < 0.
Proof.
  unfold F64.Qltb. intros H. apply negb_true_iff in H.
  apply Qnot_le_lt. intros H'. apply Qle_bool_iff in H'. congruence.
Qed.

(** A value whose significand at the exponent [exponent x] is an integer,
    below [2^1024], is a double. *)
Lemma round_exact_gen (x : Q) (k : Z) :
  ~ x == 0 ->
  Qabs x * F64.pow2 (- F64.exponent x) == inject_Z k ->
  Qabs x < inject_Z (2 ^ 1024) ->
  F64.round x = F64.Fin (Qred x).
Proof.
  intros Hx Hk Hb. unfold F64.round. cbv zeta.
  assert (Hr : Qred x == x) by apply Qred_correct.
  destruct (Qeq_bool (Qred x) 0) eqn:Hz.
  { apply Qeq_bool_iff in Hz. rewrite Hr in Hz. contradiction. }
  rewrite <- (exponent_comp x (Qred x) (Qeq_sym _ _ Hr) Hx).
  rewrite (rnd_int_comp _ (inject_Z k)) by (rewrite Hr; exact Hk).
  rewrite rnd_int_Z. unfold F64.finish. cbv zeta.
  assert (Hv : inject_Z k * F64.pow2 (F64.exponent x) == Qabs x)
    by (rewrite <- Hk; apply pow2_cancel).
  destruct (Qle_bool _ _) eqn:Hle.
  { apply Qle_bool_iff in Hle. rewrite Hv in Hle.
    exfalso. exact (Qlt_not_le _ _ Hb Hle). }
  f_equal. apply Qred_complete.
  destruct (F64.Qltb (Qred x) 0) eqn:Hs; rewrite Hv.
  - apply Qltb_true in Hs. rewrite Hr in Hs.
    rewrite Qabs_neg by (apply Qlt_le_weak; exact Hs). ring.
  - apply Qltb_false in Hs. rewrite Hr in Hs. rewrite Qabs_pos by exact Hs. reflexivity.
Qed.

(** Integers up to [2^53] in magnitude are doubles. *)
Lemma round_Z (x : Q) (z : Z) :
  x == inject_Z z -> (Z.abs z <= 2 ^ 53)%Z -> F64.round x = F64.Fin (inject_Z z).
Proof.
  intros Hx Hz.
  destruct (Z.eq_dec z 0) as [->|Hz0].
  { unfold F64.round. rewrite (Qred_complete x (inject_Z 0) Hx). reflexivity. }
  assert (Hnz : ~ x == 0).
  { rewrite Hx. intro H. apply Hz0. unfold Qeq in H. simpl in H. lia. }
  assert (Ha : Qabs x == inject_Z (Z.abs z)) by (rewrite Hx; reflexivity).
  destruct (qlog2_spec x Hnz) as [Hlo _].
  assert (Hp53 : F64.pow2 53 == inject_Z (2 ^ 53)) by (apply pow2_Z; lia).
  assert (Hq : (F64.qlog2 x <= 53)%Z).
  { destruct (Z.le_gt_cases (F64.qlog2 x) 53) as [|Hg]; [assumption|]. exfalso.
    pose proof (pow2_lt 53 _ Hg) as H1.
    assert (H2 : Qabs x <= F64.pow2 53)
      by (rewrite Ha, Hp53; rewrite <- Zle_Qle; exact Hz).
    apply (Qlt_not_le _ _ H1). eapply Qle_trans; [exact Hlo | exact H2]. }
  assert (Hk : exists k, Qabs x * F64.pow2 (- F64.exponent x) == inject_Z k).
  { unfold F64.exponent.
    destruct (Z.eq_dec (F64.qlog2 x) 53) as [E|E].
    - rewrite E in Hlo |- *.
      assert (Zabs : Z.abs z = (2 ^ 53)%Z).
      { apply Z.le_antisymm; [exact Hz|]. rewrite Hp53, Ha in Hlo.
        rewrite Zle_Qle. exact Hlo. }
      exists (2 ^ 52)%Z. rewrite Ha, Zabs. unfold Qeq. vm_compute. reflexivity.
    - exists (Z.abs z * 2 ^ (- Z.max (F64.qlog2 x - 52) (-1074)))%Z.
      rewrite Ha, inject_Z_mult. apply Qmult_comp; [reflexivity|].
      apply pow2_Z. lia. }
  destruct Hk as [k Hk].
  rewrite (round_exact_gen x k Hnz Hk).
  - f_equal. rewrite (Qred_complete x (inject_Z z) Hx). apply Qred_inject_Z.
  - rewrite Ha. rewrite <- Zlt_Qlt. lia.
Qed.

(** Values up to [2^1023] in magnitude round to a finite double. *)
Lemma round_finite (x : Q) :
  Qabs x <= F64.pow2 1023 -> exists r, F64.round x = F64.Fin r.
Proof.
  intros Hb. unfold F64.round. cbv zeta.
  destruct (Qeq_bool (Qred x) 0) eqn:Hz; [eauto|].
  assert (Hnz : ~ Qred x == 0)
    by (intro H; apply Qeq_bool_iff in H; congruence).
  assert (Hb' : Qabs (Qred x) <= F64.pow2 1023) by (rewrite Qred_correct; exact Hb).
  set (y := Qred x) in *.
  destruct (qlog2_spec y Hnz) as [Hlo _].
  assert (Hq : (F64.qlog2 y <= 1023)%Z).
  { destruct (Z.le_gt_cases (F64.qlog2 y) 1023) as [|Hg]; [assumption|]. exfalso.
    pose proof (pow2_lt 1023 _ Hg) as H1.
    apply (Qlt_not_le _ _ H1). eapply Qle_trans; [exact Hlo | exact Hb']. }
  set (e := F64.exponent y).
  assert (He : (e <= 971)%Z) by (unfold e, F64.exponent; lia).
  unfold F64.finish. cbv zeta.
  destruct (Qle_bool _ _) eqn:Hle; [|eauto].
  exfalso. apply Qle_bool_iff in Hle.
  pose proof (rnd_int_le (Qabs y * F64.pow2 (- e))) as Hr.
  assert (H1 : inject_Z (F64.rnd_int (Qabs y * F64.pow2 (- e))) * F64.pow2 e
               <= F64.pow2 1023 + F64.pow2 971).
  { apply Qle_trans with ((Qabs y * F64.pow2 (- e) + 1) * F64.pow2 e).
    - apply Qmult_le_compat_r; [exact Hr | apply Qlt_le_weak, pow2_pos].
    - assert (E : (Qabs y * F64.pow2 (- e) + 1) * F64.pow2 e == Qabs y + F64.pow2 e)
        by (rewrite Qmult_plus_distr_l, pow2_cancel; ring).
      rewrite E. apply Qplus_le_compat; [exact Hb' | apply pow2_le; exact He]. }
  assert (H2 : F64.pow2 1023 + F64.pow2 971 < inject_Z (2 ^ 1024))
    by (unfold Qlt; vm_compute; reflexivity).
  apply (Qlt_not_le _ _ H2). eapply Qle_trans; [exact Hle | exact H1].
Qed.

End F64Facts.


(** ** Sliding window: the sweep *)

Section Sweep.

(** The sweep only ever drops a prefix of the deque. *)
Lemma evict_loop_prefix (c : Z) (q q' : State) (o : option exn) :
  evict_loop c q = (q', o) -> exists p, q = (p ++ q')%list.
Proof.
  revert q' o; induction q as [|e q IH]; intros q' o H; simpl in H.
  - inversion H; subst. exists []. reflexivity.
  - destruct (ts_lt (timestamp e) c) as [x|[|]].
    + inversion H; subst. exists []. reflexivity.
    + destruct (IH _ _ H) as [p Hp]. exists (e :: p). simpl. now rewrite Hp.
    + inversion H; subst. exists []. reflexivity.
Qed.

(** A completed sweep leaves nothing for a second sweep with the same
    cutoff. *)
Lemma evict_loop_stable (c : Z) (q q' : State) :
  evict_loop c q = (q', None) -> evict_loop c q' = (q', None).
Proof.
  revert q'; induction q as [|e q IH]; intros q' H; simpl in H.
  - inversion H; subst. reflexivity.
  - destruct (ts_lt (timestamp e) c) as [x|[|]] eqn:Hts.
    + discriminate.
    + exact (IH _ H).
    + inversion H; subst. simpl. now rewrite Hts.
Qed.

End Sweep.

(** ** C4: fewer than [MIN_EVENTS_FOR_ANALYSIS] events *)

(** Claim C4: for every list of fewer than 5 events and every metrics
    argument, [detect_anomalies] returns the empty list. *)
Theorem detect_below_min_events_empty (events : list LogEvent) (metrics : MetricsArg) :
  (List.length events < MIN_EVENTS_FOR_ANALYSIS)%nat ->
  detect_anomalies events metrics = inr [].
Proof.
  intros H. unfold detect_anomalies.
  destruct events as [|e events]; [reflexivity|].
  apply Nat.ltb_lt in H. now rewrite H.
Qed.

Lemma detect_below_min_events_empty_witness :
  detect_anomalies [mkEvent None None None None None] MetricsNoGet = inr [].
Proof.
  apply detect_below_min_events_empty. unfold MIN_EVENTS_FOR_ANALYSIS. simpl. lia.
Defined.

(** ** C10: shape of the detector's output *)

Ltac in_msg :=
  simpl; intros; repeat (first [left; reflexivity | right]); try reflexivity.
Ltac all_msgs := repeat (apply Forall_cons; [in_msg|]); apply Forall_nil.


Lemma detect_try_shape (events : list LogEvent) (metrics : MetricsArg) :
  let (s, r) := detect_try events metrics [] in
  match r with
  | inr _ => s = [] \/ s = [CRITICAL_LATENCY] \/ s = [WARNING_ERROR_RATE]
             \/ s = [CRITICAL_LATENCY; WARNING_ERROR_RATE]
  | inl _ => s = [] \/ s = [CRITICAL_LATENCY]
  end.
Proof.
  unfold detect_try, mbind, lift, append, mret.
  destruct (latency_spike events) as [x|[|]]; [simpl; auto| |];
    simpl;
    destruct (metrics_get _ _ _) as [x|v]; simpl; auto;
    destruct (py_gt v _) as [x|[|]]; simpl; auto.
Qed.

(** Claim C10: every list returned by [detect_anomalies] has at most two
    entries, each one of the three fixed messages, and the degraded entry
    never comes with both threshold signals. *)
Theorem detect_output_bounded (events : list LogEvent) (metrics : MetricsArg)
    (l : list string) :
  detect_anomalies events metrics = inr l ->
  (List.length l <= 2)%nat /\
  Forall (fun s => s = CRITICAL_LATENCY \/ s = WARNING_ERROR_RATE
                   \/ s = ERROR_DETECTION) l /\
  ~ (In ERROR_DETECTION l /\ In CRITICAL_LATENCY l /\ In WARNING_ERROR_RATE l).
Proof.
  unfold detect_anomalies.
  destruct events as [|e events].
  { intros H; inversion H; subst. simpl. repeat split; auto. intros [[] _]. }
  destruct (_ <? _)%nat.
  { intros H; inversion H; subst. simpl. repeat split; auto. intros [[] _]. }
  pose proof (detect_try_shape (e :: events) metrics) as Hs.
  destruct (detect_try (e :: events) metrics []) as [s [x|u]].
  - destruct x; intros H; inversion H; subst;
      destruct Hs as [->| ->]; simpl;
      (split; [lia | split; [all_msgs | ]]);
      unfold CRITICAL_LATENCY, WARNING_ERROR_RATE, ERROR_DETECTION;
      simpl; intuition discriminate.
  - intros H; inversion H; subst.
    destruct Hs as [->|[->|[->| ->]]]; simpl;
      (split; [lia | split; [all_msgs | ]]);
      unfold CRITICAL_LATENCY, WARNING_ERROR_RATE, ERROR_DETECTION;
      simpl; intuition discriminate.
Qed.

Lemma detect_output_bounded_witness :
  let evs := repeat (valid_event 0 "u" 100 0 false) 5 in
  detect_anomalies evs (MetricsObj [("error_rate", VStr "n/a")])
    = inr [ERROR_DETECTION] /\
  (List.length [ERROR_DETECTION] <= 2)%nat.
Proof.
  split; [vm_compute; reflexivity|].
  apply (detect_output_bounded (repeat (valid_event 0 "u" 100 0 false) 5)
           (MetricsObj [("error_rate", VStr "n/a")])).
  vm_compute. reflexivity.
Defined.

(** ** C3: non-positive window *)

(** Claim C3 as stated fails on the empty list: the emptiness guard comes
    first and [compute_metrics [] 0] returns [{}] without error. *)
Lemma compute_empty_nonpositive_window_cex :
  compute_metrics [] 0 = ret MetricsEmpty /\
  (forall x : exn, compute_metrics [] 0 <> inl x).
Proof. split; [reflexivity | discriminate]. Qed.

(** Claim C3 (amended): for every non-empty list of events, whatever its
    content, and every [window_minutes <= 0], [compute_metrics] fails with
    the invalid-argument [ValueError] before reading any event; for the
    empty list the emptiness guard comes first and [compute_metrics]
    returns the empty result [{}] without error, whatever
    [window_minutes] is. *)
Theorem compute_nonpositive_window_fails :
  ((forall (events : list LogEvent) (w : Z),
      events <> [] -> (w <= 0)%Z ->
      compute_metrics events w
      = inl (ValueError "window_minutes must be a positive integer")) /\
  (forall w : Z, compute_metrics [] w = ret MetricsEmpty))%type.
Proof.
  split; [|reflexivity].
  intros events w Hne Hw. unfold compute_metrics.
  destruct events as [|e events]; [congruence|].
  apply Z.leb_le in Hw. now rewrite Hw.
Qed.

Lemma compute_nonpositive_window_fails_witness :
  (compute_metrics [mkEvent None None None None None] (-5)
  = inl (ValueError "window_minutes must be a positive integer") /\
  compute_metrics [] 0 = ret MetricsEmpty)%type.
Proof.
  split.
  - apply (proj1 compute_nonpositive_window_fails); [discriminate | lia].
  - apply (proj2 compute_nonpositive_window_fails).
Defined.

(** ** C5: consecutive snapshots *)

(** Claim C5 as stated fails when the clock moves between the two calls:
    an event exactly at the cutoff is kept by the first [get_events] and
    evicted by the second, one microsecond later. *)
Lemma snapshot_clock_moves_cex :
  let e := valid_event 0 "u" 100 50 false in
  get_events window_us [e] = ([e], inr [e]) /\
  get_events (window_us + 1) [e] = ([], inr []).
Proof. split; reflexivity. Qed.

(** Claim C5 (amended): after a successful [get_events], a second call at
    the same clock reading with no [add] in between returns the identical
    list; a call at any other clock reading returns a suffix of it. *)
Theorem snapshot_idempotent_same_clock (now : Z) (q q1 : State)
    (l : list LogEvent) :
  get_events now q = (q1, inr l) ->
  get_events now q1 = (q1, inr l) /\
  (forall (now' : Z) (q2 : State) (l' : list LogEvent),
      get_events now' q1 = (q2, inr l') -> exists p, l = (p ++ l')%list).
Proof.
  unfold get_events, _evict_old_events.
  destruct (evict_loop (now - window_us) q) as [q2 [x|]] eqn:He;
    intros H; inversion H; subst.
  split.
  - now rewrite (evict_loop_stable _ _ _ He).
  - intros now' q3 l' H'.
    destruct (evict_loop (now' - window_us) l) as [q4 [y|]] eqn:He';
      inversion H'; subst.
    exact (evict_loop_prefix _ _ _ _ He').
Qed.

Lemma snapshot_idempotent_same_clock_witness :
  let e := valid_event 0 "u" 100 50 false in
  get_events 5 [e] = ([e], inr [e]) /\ get_events 5 [e] = ([e], inr [e]).
Proof.
  split; [reflexivity|].
  apply (snapshot_idempotent_same_clock 5 [valid_event 0 "u" 100 50 false]).
  reflexivity.
Defined.

(** ** C8: [None] timestamp reaching the store *)

(** Claim C8 as stated fails: a [None] timestamp makes [add] raise
    [ValueError], which [ingest_log] reports as a 400 client error, not as
    an internal (500) failure. *)
Lemma add_null_timestamp_cex :
  let ev := mkEvent (Some TsNone) (Some (VStr "u")) (Some (VInt 1))
                    (Some (VInt 0)) (Some (VBool false)) in
  add 0 ev [] = ([], inl (ValueError "LogEvent timestamp cannot be None")) /\
  (forall msg, snd (add 0 ev []) <> inl (RuntimeError msg)) /\
  ingest_log 0 ev [] = ([], HttpError 400 "LogEvent timestamp cannot be None").
Proof. split; [reflexivity | split; [intros msg; discriminate | reflexivity]]. Qed.

(** Claim C8 (amended): an event whose timestamp is [None] makes [add]
    raise [ValueError("LogEvent timestamp cannot be None")], which the
    ingest endpoint surfaces as a 400 error carrying that message, and the
    store is left unchanged. *)
Theorem add_null_timestamp_value_error (now : Z) (ev : LogEvent) (q : State) :
  timestamp ev = Some TsNone ->
  add now ev q = (q, inl (ValueError "LogEvent timestamp cannot be None")) /\
  ingest_log now ev q = (q, HttpError 400 "LogEvent timestamp cannot be None").
Proof.
  intros H. unfold ingest_log, add. rewrite H. split; reflexivity.
Qed.

Lemma add_null_timestamp_value_error_witness :
  let ev := mkEvent (Some TsNone) None None None None in
  add 7 ev [] = ([], inl (ValueError "LogEvent timestamp cannot be None")) /\
  ingest_log 7 ev [] = ([], HttpError 400 "LogEvent timestamp cannot be None").
Proof. apply add_null_timestamp_value_error. reflexivity. Defined.

(** ** C1: eviction under monotonic admission *)

Section Eviction.

Lemma ts_le_trans : forall x y z, ts_le x y -> ts_le y z -> ts_le x z.
Proof.
  intros x y z (a & b & Ha & Hb & Hab) (b' & c & Hb' & Hc & Hbc).
  rewrite Hb in Hb'. inversion Hb'; subst.
  exists a, c. repeat split; auto. lia.
Qed.

Lemma StronglySorted_app_r {A} (R : A -> A -> Prop) (p q : list A) :
  StronglySorted R (p ++ q) -> StronglySorted R q.
Proof.
  induction p as [|x p IH]; simpl; auto.
  intros H. apply StronglySorted_inv in H. exact (IH (proj1 H)).
Qed.

(** On aware timestamps the sweep never raises. *)
Lemma evict_loop_aware (c : Z) (q : State) :
  Forall aware q -> snd (evict_loop c q) = None.
Proof.
  induction q as [|e q IH]; intros H; [reflexivity|].
  inversion H as [|? ? [t Ht] Hq]; subst. simpl.
  unfold ts_lt, bind, getattr, ret. rewrite Ht.
  destruct (t <? c)%Z; [exact (IH Hq) | reflexivity].
Qed.

(** A run of [add] calls on aware events succeeds and leaves a suffix of
    everything admitted. *)
Lemma add_all_suffix (xs : list (Z * LogEvent)) :
  forall (q q' : State) (r : Result unit),
  Forall aware q -> Forall (fun x => aware (snd x)) xs ->
  add_all q xs = (q', r) ->
  r = inr tt /\ Forall aware q' /\
  exists p, (q ++ map snd xs)%list = (p ++ q')%list.
Proof.
  induction xs as [|[now e] xs IH]; intros q q' r Hq Hxs H; simpl in H.
  - inversion H; subst. repeat split; auto. exists []. now rewrite app_nil_r.
  - inversion Hxs as [|? ? He Hxs']; subst. simpl in He.
    assert (Hq1 : Forall aware (q ++ [e])%list)
      by (apply Forall_app; split; auto).
    unfold add in H. destruct He as [t Ht]. rewrite Ht in H.
    unfold _evict_old_events in H.
    pose proof (evict_loop_aware (now - window_us) _ Hq1) as Hok.
    destruct (evict_loop (now - window_us) (q ++ [e])%list) as [q1 o] eqn:Hev.
    simpl in Hok; subst o.
    destruct (evict_loop_prefix _ _ _ _ Hev) as [p1 Hp1].
    assert (Hq1' : Forall aware q1).
    { rewrite Hp1 in Hq1. apply Forall_app in Hq1. tauto. }
    destruct (IH q1 q' r Hq1' Hxs' H) as (Hr & Hq' & p2 & Hp2).
    repeat split; auto.
    exists (p1 ++ p2)%list. simpl.
    replace (q ++ e :: map snd xs)%list with ((q ++ [e]) ++ map snd xs)%list
      by (rewrite <- app_assoc; reflexivity).
    rewrite Hp1, <- app_assoc, Hp2. apply app_assoc.
Qed.

(** On a sorted aware deque the sweep removes exactly the prefix older
    than the cutoff. *)
Lemma evict_loop_sorted (c : Z) (q : State) :
  StronglySorted ts_le q -> Forall aware q ->
  exists l p, evict_loop c q = (l, None) /\ q = (p ++ l)%list /\
    (forall e t, In e p -> timestamp e = Some (TsAware t) -> (t < c)%Z) /\
    (forall e t, In e l -> timestamp e = Some (TsAware t) -> (c <= t)%Z).
Proof.
  induction q as [|e q IH]; intros Hs Ha.
  - exists [], []. repeat split; simpl; tauto.
  - apply StronglySorted_inv in Hs as [Hs Hle].
    inversion Ha as [|? ? [t Ht] Hq]; subst.
    simpl. unfold ts_lt, bind, getattr, ret. rewrite Ht.
    destruct (t <? c)%Z eqn:Htc.
    + destruct (IH Hs Hq) as (l & p & Hev & Hp & Hold & Hnew).
      exists l, (e :: p). repeat split; auto.
      * simpl. now rewrite Hp.
      * intros e' t' [<-|Hin] Ht'.
        -- rewrite Ht in Ht'. inversion Ht'; subst. now apply Z.ltb_lt.
        -- exact (Hold e' t' Hin Ht').
    + exists (e :: q), []. repeat split; auto.
      * intros e' t' [].
      * apply Z.ltb_ge in Htc.
        intros e' t' [<-|Hin] Ht'.
        -- rewrite Ht in Ht'. inversion Ht'; subst. exact Htc.
        -- rewrite Forall_forall in Hle.
           destruct (Hle e' Hin) as (a & b & Ha' & Hb & Hab).
           rewrite Ht in Ha'. inversion Ha'; subst.
           rewrite Ht' in Hb. inversion Hb; subst. lia.
Qed.

End Eviction.

(** Claim C1: for every run of [add] calls on a fresh window whose events
    carry aware timestamps admitted in non-decreasing order, a later
    [get_events] at any clock reading [now] succeeds, returns no event
    whose age [now - t] exceeds the 2-minute window, and its sweep has
    removed exactly a contiguous prefix of the deque, each removed event
    being older than the window. *)
Theorem snapshot_evicts_expired (xs : list (Z * LogEvent)) (q : State)
    (r : Result unit) (now : Z) :
  Forall (fun x => aware (snd x)) xs ->
  Sorted ts_le (map snd xs) ->
  add_all [] xs = (q, r) ->
  r = inr tt /\
  exists l, get_events now q = (l, inr l) /\
    (forall e t, In e l -> timestamp e = Some (TsAware t) ->
                 (now - t <= window_us)%Z) /\
    exists p, q = (p ++ l)%list /\
      (forall e t, In e p -> timestamp e = Some (TsAware t) ->
                   (now - t > window_us)%Z).
Proof.
  intros Ha Hs Hrun.
  destruct (add_all_suffix xs [] q r (Forall_nil _) Ha Hrun)
    as (Hr & Hq & p0 & Hp0).
  split; [exact Hr|].
  apply Sorted_StronglySorted in Hs; [|exact ts_le_trans].
  simpl in Hp0. rewrite Hp0 in Hs. apply StronglySorted_app_r in Hs.
  destruct (evict_loop_sorted (now - window_us) q Hs Hq)
    as (l & p & Hev & Hp & Hold & Hnew).
  exists l. split.
  - unfold get_events, _evict_old_events. now rewrite Hev.
  - split.
    + intros e t Hin Ht. specialize (Hnew e t Hin Ht). lia.
    + exists p. split; [exact Hp|].
      intros e t Hin Ht. specialize (Hold e t Hin Ht). lia.
Qed.

Lemma snapshot_evicts_expired_witness :
  let xs := [(0%Z, valid_event 0 "a" 10 1 false);
             (60000000%Z, valid_event 60000000 "b" 10 1 false);
             (200000000%Z, valid_event 200000000 "c" 10 1 true)] in
  add_all [] xs = ([valid_event 200000000 "c" 10 1 true], inr tt) /\
  inr tt = (inr tt : Result unit).
Proof.
  split; [reflexivity|].
  refine (proj1 (snapshot_evicts_expired
    [(0%Z, valid_event 0 "a" 10 1 false);
     (60000000%Z, valid_event 60000000 "b" 10 1 false);
     (200000000%Z, valid_event 200000000 "c" 10 1 true)]
    [valid_event 200000000 "c" 10 1 true] (inr tt) 200000000 _ _ _)).
  - repeat constructor; eexists; reflexivity.
  - repeat constructor; unfold ts_le; do 2 eexists; simpl;
      (split; [reflexivity | split; [reflexivity | lia]]).
  - reflexivity.
Defined.

(** ** C9: one-event aggregation *)

Section SingleEvent.
Local Open Scope Q_scope.

Lemma of_Z_small (z : Z) : (Z.abs z <= 2 ^ 53)%Z -> F64.of_Z z = F64.Fin (inject_Z z).
Proof. intros H. apply round_Z; [reflexivity | exact H]. Qed.

Lemma sum_cast_single (x : F64.t) :
  sum_cast [x] = F64.add (F64.Fin 0) (F64.add (F64.Fin 0) x).
Proof. reflexivity. Qed.

Lemma np_array_single (L : Z) :
  (Z.abs L <= 2 ^ 53)%Z -> np_array [VInt L] = inr (AInt64 [L]).
Proof.
  intros H. unfold np_array, array_kind. cbn -[in_int64].
  replace (in_int64 L) with true; [reflexivity|].
  symmetry. unfold in_int64. apply andb_true_intro. split.
  - apply Z.leb_le. lia.
  - apply Z.ltb_lt. lia.
Qed.

Lemma np_mean_single (L : Z) :
  (Z.abs L <= 2 ^ 53)%Z -> np_mean (AInt64 [L]) = inr (F64.Fin (inject_Z L)).
Proof.
  intros H. unfold np_mean. change (map F64.of_Z [L]) with [F64.of_Z L].
  rewrite (sum_cast_single (F64.of_Z L)), of_Z_small by exact H.
  change (len_f (List.length [L])) with (F64.Fin 1).
  unfold ret. f_equal.
  change (F64.add (F64.Fin 0) (F64.Fin (inject_Z L))) with (F64.round (0 + inject_Z L)).
  rewrite (round_Z (0 + inject_Z L) L) by (ring || exact H).
  change (F64.add (F64.Fin 0) (F64.Fin (inject_Z L))) with (F64.round (0 + inject_Z L)).
  rewrite (round_Z (0 + inject_Z L) L) by (ring || exact H).
  unfold F64.div. change (Qeq_bool 1 0) with false. cbv iota.
  apply round_Z; [field | exact H].
Qed.

Lemma np_percentile_single (L p : Z) :
  (Z.abs L <= 2 ^ 53)%Z -> pct_setup 1 p = (-1, -1, F64.Fin 1)%Z ->
  np_percentile (AInt64 [L]) p = inr (F64.Fin (inject_Z L)).
Proof.
  intros H Hp. unfold np_percentile.
  change (Z.of_nat (arr_length (AInt64 [L]))) with 1%Z.
  change ((1 =? 0)%Z) with false. cbv iota. rewrite Hp. cbv beta iota.
  change (sort_by Z.leb [L]) with [L].
  change (at_index 0%Z [L] (-1)) with L.
  rewrite Z.sub_diag. change (wrap64 0) with 0%Z.
  rewrite of_Z_small by exact H.
  change (F64.of_Z 0) with (F64.Fin 0).
  unfold lerp. change (F64.le (F64.Fin (1 # 2)) (F64.Fin 1)) with true. cbv iota.
  change (F64.mul (F64.Fin 0) (F64.sub (F64.Fin 1) (F64.Fin 1))) with (F64.Fin 0).
  change (F64.sub (F64.Fin (inject_Z L)) (F64.Fin 0))
    with (F64.round (inject_Z L + - 0)).
  unfold ret. f_equal. apply round_Z; [ring | exact H].
Qed.

Lemma pct_setup_single_50 : pct_setup 1 50 = (-1, -1, F64.Fin 1)%Z.
Proof. vm_compute. reflexivity. Qed.
Lemma pct_setup_single_95 : pct_setup 1 95 = (-1, -1, F64.Fin 1)%Z.
Proof. vm_compute. reflexivity. Qed.
Lemma pct_setup_single_99 : pct_setup 1 99 = (-1, -1, F64.Fin 1)%Z.
Proof. vm_compute. reflexivity. Qed.

Lemma truediv_finite (T : Z) (p : positive) :
  (Z.abs T <= 2 ^ 1023)%Z ->
  exists r, py_truediv (NInt T) (NInt (Z.pos p)) = inr (F64.Fin r).
Proof.
  intros H. unfold py_truediv. change ((Z.pos p =? 0)%Z) with false. cbv iota.
  destruct (round_finite (inject_Z T / inject_Z (Z.pos p))) as [r Hr].
  - assert (E : inject_Z T / inject_Z (Z.pos p) == T # p) by (apply frac_eq; lia).
    rewrite E. change (Qabs (T # p)) with (Z.abs T # p).
    rewrite pow2_Z by lia. unfold Qle. cbn [Qnum Qden inject_Z].
    assert (0 < 2 ^ 1023)%Z by (apply Z.pow_pos_nonneg; lia).
    pose proof (Pos2Z.is_pos p). nia.
  - rewrite Hr. eauto.
Qed.

End SingleEvent.

(** Counterexample to claim C9 as stated: a latency of [2^53 + 1] is
    stored by numpy as the double [2^53], so the average is [2^53]; with
    [tokens_used = 10^400] the cost [T / 1000] overflows a double and
    [compute_metrics] fails with [RuntimeError]. *)
Lemma compute_single_event_cex :
  (exists m, compute_metrics [valid_event 0 "u" (2 ^ 53 + 1) 0 false] 1
             = inr (MetricsDict m) /\
     avg_latency m = F64.Fin (inject_Z (2 ^ 53)) /\
     avg_latency m <> F64.Fin (inject_Z (2 ^ 53 + 1))) /\
  compute_metrics [valid_event 0 "u" 100 (10 ^ 400) false] 1
    = inl (RuntimeError "Metric computation failed").
Proof.
  split; [|vm_compute; reflexivity].
  eexists. split; [vm_compute; reflexivity|].
  split; [vm_compute; reflexivity|]. vm_compute. discriminate.
Qed.

(** Claim C9, as the code computes it: for one event with
    [latency_ms = L], [tokens_used = T] and a window of [W > 0] minutes,
    [compute_metrics] returns average and all three percentiles equal to
    the double [L] when [|L| <= 2^53] (integers beyond are rounded to a
    double by numpy), an error rate of 1.0 or 0.0 following [is_error],
    [requests_per_min = 1 // W] and [tokens_per_min = T // W] (floor
    divisions), provided [|T| <= 2^1023] (beyond about [1.8e311] the cost
    [T / 1000] overflows and the computation fails). *)
Theorem compute_single_event (ts : Z) (user : string) (L T : Z) (err : bool)
    (W : Z) :
  (0 < W)%Z -> (Z.abs L <= 2 ^ 53)%Z -> (Z.abs T <= 2 ^ 1023)%Z ->
  exists m, compute_metrics [valid_event ts user L T err] W = inr (MetricsDict m) /\
    avg_latency m = F64.Fin (inject_Z L) /\
    p50_latency m = F64.Fin (inject_Z L) /\
    p95_latency m = F64.Fin (inject_Z L) /\
    p99_latency m = F64.Fin (inject_Z L) /\
    error_rate m = F64.Fin (if err then 1 else 0)%Q /\
    requests_per_min m = (1 / W)%Z /\
    tokens_per_min m = NInt (T / W).
Proof.
  intros HW HL HT. destruct W as [|w|w]; try lia.
  destruct (truediv_finite T 1000 HT) as [c Hc].
  unfold compute_metrics. change ((Z.pos w <=? 0)%Z) with false. cbv iota.
  unfold compute_try. cbn [map_res getattr valid_event latency_ms bind ret].
  cbn [py_sum getattr valid_event is_error tokens_used bind py_num py_add ret].
  cbn [count_users getattr valid_event user_id bind hashable dict_incr ret].
  rewrite np_array_single by exact HL. cbn [bind].
  rewrite np_mean_single by exact HL. cbn [bind].
  rewrite np_percentile_single by (exact HL || exact pct_setup_single_50). cbn [bind].
  rewrite np_percentile_single by (exact HL || exact pct_setup_single_95). cbn [bind].
  rewrite np_percentile_single by (exact HL || exact pct_setup_single_99). cbn [bind].
  rewrite !Z.add_0_l, Hc.
  destruct err.
  - change (py_truediv (NInt 1) (NInt (Z.of_nat (List.length [valid_event ts user L T true]))))
      with (inr (A := exn) (F64.Fin 1)).
    cbn [bind py_floordiv]. change ((Z.pos w =? 0)%Z) with false. cbv iota.
    eexists. split; [reflexivity|]. cbn. repeat split.
  - change (py_truediv (NInt 0) (NInt (Z.of_nat (List.length [valid_event ts user L T false]))))
      with (inr (A := exn) (F64.Fin 0)).
    cbn [bind py_floordiv]. change ((Z.pos w =? 0)%Z) with false. cbv iota.
    eexists. split; [reflexivity|]. cbn. repeat split.
Qed.

Lemma compute_single_event_witness :
  exists m, compute_metrics [valid_event 0 "user123" 200 100 false] 5
            = inr (MetricsDict m) /\
    avg_latency m = F64.Fin 200 /\ p50_latency m = F64.Fin 200 /\
    p95_latency m = F64.Fin 200 /\ p99_latency m = F64.Fin 200 /\
    error_rate m = F64.Fin 0 /\ requests_per_min m = 0%Z /\
    tokens_per_min m = NInt 20.
Proof.
  apply (compute_single_event 0 "user123" 200 100 false 5);
    [lia | lia | vm_compute; discriminate].
Defined.

(** ** Attribute reads over a batch *)

Section Attributes.

Lemma map_res_getattr_missing {A} (f : LogEvent -> option A) (es : list LogEvent) :
  Exists (fun e => f e = None) es ->
  map_res (fun e => getattr (f e)) es = inl AttributeError.
Proof.
  induction 1 as [e es He | e es _ IH]; simpl.
  - now rewrite He.
  - destruct (f e); simpl; [now rewrite IH | reflexivity].
Qed.

Lemma map_res_getattr_present {A} (f : LogEvent -> option A) (es : list LogEvent) :
  Forall (fun e => f e <> None) es ->
  exists vs, map_res (fun e => getattr (f e)) es = inr vs /\
             Forall2 (fun e v => f e = Some v) es vs.
Proof.
  induction 1 as [|e es He _ [vs [Hvs H2]]]; [exists []; split; auto|].
  destruct (f e) as [v|] eqn:Hf; [|congruence].
  exists (v :: vs). simpl. rewrite Hf, Hvs. split; auto.
Qed.

Lemma map_res_num_non_numeric (vs : list PyVal) :
  Exists (fun v => py_num v = None) vs ->
  map_res (fun v => match py_num v with
                    | Some n => ret n
                    | None => raise TypeError
                    end) vs = inl TypeError.
Proof.
  induction 1 as [v vs Hv | v vs _ IH]; simpl.
  - now rewrite Hv.
  - destruct (py_num v); simpl; [now rewrite IH | reflexivity].
Qed.

Lemma np_array_non_numeric (vs : list PyVal) :
  Exists (fun v => py_num v = None) vs -> np_array vs = inl TypeError.
Proof. intros H. unfold np_array. now rewrite (map_res_num_non_numeric vs H). Qed.

Lemma map_res_num_ints (Ls : list Z) :
  map_res (fun v => match py_num v with
                    | Some n => ret n
                    | None => raise TypeError
                    end) (map VInt Ls) = inr (map NInt Ls).
Proof. induction Ls as [|L Ls IH]; simpl; [reflexivity|]. now rewrite IH. Qed.

Lemma kind_int64_fold (Ls : list Z) :
  Forall (fun L => in_int64 L = true) Ls ->
  fold_left (fun k w => promote k (kind_of w)) (map VInt Ls) KInt64 = KInt64.
Proof.
  induction 1 as [|L Ls HL _ IH]; [reflexivity|].
  simpl. rewrite HL. exact IH.
Qed.

Lemma np_array_int64 (L0 : Z) (Ls : list Z) :
  Forall (fun L => in_int64 L = true) (L0 :: Ls) ->
  np_array (map VInt (L0 :: Ls)) = inr (AInt64 (L0 :: Ls)).
Proof.
  intros H. unfold np_array. rewrite map_res_num_ints. cbn [bind].
  inversion H as [|? ? H0 H1]; subst.
  unfold array_kind. cbn [map kind_of]. rewrite H0, (kind_int64_fold Ls H1).
  rewrite map_map. cbn [int_of]. rewrite map_id. reflexivity.
Qed.

Lemma py_sum_missing (f : LogEvent -> option PyVal) (es : list LogEvent) :
  Forall (fun e => int_or_missing (f e)) es ->
  Exists (fun e => f e = None) es ->
  forall a, py_sum f (NInt a) es = inl AttributeError.
Proof.
  intros Hall Hex. induction Hex as [e es He | e es _ IH]; intros a; simpl.
  - now rewrite He.
  - inversion Hall as [|? ? Hn Hall']; subst.
    destruct (f e) as [v|]; simpl; [|reflexivity].
    destruct Hn as [z Hz]. rewrite Hz. simpl. exact (IH Hall' _).
Qed.

Lemma py_sum_present (f : LogEvent -> option PyVal) (es : list LogEvent) :
  Forall (fun e => int_or_missing (f e)) es ->
  Forall (fun e => f e <> None) es ->
  forall a, exists s, py_sum f (NInt a) es = inr s.
Proof.
  induction es as [|e es IH]; intros Hn Hp a; simpl; [eauto|].
  inversion Hn as [|? ? Hne Hn']; inversion Hp as [|? ? Hpe Hp']; subst.
  destruct (f e) as [v|]; [|congruence]. simpl.
  destruct Hne as [z Hz]. rewrite Hz. simpl. exact (IH Hn' Hp' _).
Qed.

Lemma count_users_missing (es : list LogEvent) :
  Forall (fun e => hashable_or_missing (user_id e)) es ->
  Exists (fun e => user_id e = None) es ->
  forall d, count_users d es = inl AttributeError.
Proof.
  intros Hall Hex. induction Hex as [e es He | e es _ IH]; intros d; simpl.
  - now rewrite He.
  - inversion Hall as [|? ? Hh Hall']; subst.
    destruct (user_id e) as [u|]; simpl; [|reflexivity].
    simpl in Hh. rewrite Hh. exact (IH Hall' _).
Qed.

Lemma Forall_or_Exists_None {A} (f : LogEvent -> option A) (es : list LogEvent) :
  Forall (fun e => f e <> None) es \/ Exists (fun e => f e = None) es.
Proof.
  induction es as [|e es [IH|IH]]; [left; constructor| |right; now constructor 2].
  destruct (f e) eqn:Hf.
  - left. constructor; [congruence | exact IH].
  - right. now constructor 1.
Qed.

Lemma latencies_raw_ints (events : list LogEvent) (Ls : list Z) :
  map latency_ms events = map (fun L => Some (VInt L)) Ls ->
  map_res (fun e => getattr (latency_ms e)) events = inr (map VInt Ls).
Proof.
  revert Ls. induction events as [|e events IH]; intros [|L Ls] H;
    simpl in H; try discriminate; [reflexivity|].
  inversion H as [[He Hrest]]. simpl. rewrite He. simpl.
  now rewrite (IH Ls Hrest).
Qed.

End Attributes.

Lemma Forall2_Exists_transfer {A B} (P : A -> B -> Prop) (Q : A -> Prop)
    (R : B -> Prop) (l1 : list A) (l2 : list B) :
  Forall2 P l1 l2 -> Exists Q l1 -> (forall a b, P a b -> Q a -> R b) ->
  Exists R l2.
Proof.
  intros H2 Hex HPQ. induction H2 as [|a b l1 l2 Hab _ IH].
  - inversion Hex.
  - inversion Hex as [? ? Ha | ? ? Hl]; subst.
    + constructor 1. exact (HPQ a b Hab Ha).
    + constructor 2. exact (IH Hl).
Qed.

Lemma detect_guard (events : list LogEvent) (metrics : MetricsArg) :
  (MIN_EVENTS_FOR_ANALYSIS <= List.length events)%nat ->
  detect_anomalies events metrics
  = match detect_try events metrics [] with
    | (anomalies, inr _) => ret anomalies
    | (_, inl AttributeError) => raise (ValueError "Invalid log event structure")
    | (anomalies, inl _) => ret (anomalies ++ [ERROR_DETECTION])%list
    end.
Proof.
  intros Hlen. unfold detect_anomalies.
  destruct events as [|e0 es]; [simpl in Hlen; unfold MIN_EVENTS_FOR_ANALYSIS in Hlen; lia|].
  destruct (_ <? _)%nat eqn:Hlt; [apply Nat.ltb_lt in Hlt; lia|].
  reflexivity.
Qed.

(** ** C7: malformed events *)

(** Claim C7 as stated fails for [detect_anomalies]: with fewer than five
    events the guard returns [[]] before any attribute is read, so a batch
    made of one event without [latency_ms] yields no error. *)
Lemma detect_malformed_short_batch_cex :
  detect_anomalies
    [mkEvent (Some (TsAware 0)) (Some (VStr "u")) None (Some (VInt 0))
             (Some (VBool false))]
    (MetricsObj [("error_rate", VFloat (F64.Fin 0))]) = inr [].
Proof. reflexivity. Qed.

(** Claim C7 (amended): [compute_metrics] with [window_minutes > 0] fails
    with the validation [ValueError("Invalid log event structure")] as soon
    as one event lacks one of the attributes it reads ([latency_ms],
    [is_error], [tokens_used], [user_id]), provided the [is_error] and
    [tokens_used] values that are present are integers (or booleans) and
    the [user_id] values that are present are hashable; [detect_anomalies]
    on at least five events fails with the same error as soon as one event
    lacks [latency_ms], whatever the metrics.  No partial result is
    returned in either case.  On fewer than five events [detect_anomalies]
    returns [[]] without reading them. *)
Theorem malformed_event_rejected :
  (forall (events : list LogEvent) (w : Z),
      (0 < w)%Z ->
      Exists misses_compute_attr events ->
      Forall (fun e => int_or_missing (is_error e) /\
                       int_or_missing (tokens_used e) /\
                       hashable_or_missing (user_id e)) events ->
      compute_metrics events w = inl (ValueError "Invalid log event structure")) /\
  (forall (events : list LogEvent) (metrics : MetricsArg),
      (MIN_EVENTS_FOR_ANALYSIS <= List.length events)%nat ->
      Exists (fun e => latency_ms e = None) events ->
      detect_anomalies events metrics
      = inl (ValueError "Invalid log event structure")) /\
  (forall (events : list LogEvent) (metrics : MetricsArg),
      (List.length events < MIN_EVENTS_FOR_ANALYSIS)%nat ->
      detect_anomalies events metrics = inr []).
Proof.
  split; [|split].
  - intros events w Hw Hex Hty.
    assert (Hne : events <> []) by (intros ->; inversion Hex).
    assert (Htry : compute_try events w = inl AttributeError).
    { unfold compute_try.
      destruct (Forall_or_Exists_None latency_ms events) as [Hl|Hl];
        [|now rewrite (map_res_getattr_missing _ _ Hl)].
      destruct (map_res_getattr_present _ _ Hl) as [vs [Hvs _]].
      rewrite Hvs. cbn [bind].
      assert (He : Forall (fun e => int_or_missing (is_error e)) events)
        by (eapply Forall_impl; [|exact Hty]; intros e (? & ? & ?); auto).
      assert (Ht : Forall (fun e => int_or_missing (tokens_used e)) events)
        by (eapply Forall_impl; [|exact Hty]; intros e (? & ? & ?); auto).
      assert (Hu : Forall (fun e => hashable_or_missing (user_id e)) events)
        by (eapply Forall_impl; [|exact Hty]; intros e (? & ? & ?); auto).
      destruct (Forall_or_Exists_None is_error events) as [Hi|Hi];
        [|now rewrite (py_sum_missing _ _ He Hi)].
      destruct (py_sum_present _ _ He Hi 0) as [s1 Hs1]. rewrite Hs1. cbn [bind].
      destruct (Forall_or_Exists_None tokens_used events) as [Hk|Hk];
        [|now rewrite (py_sum_missing _ _ Ht Hk)].
      destruct (py_sum_present _ _ Ht Hk 0) as [s2 Hs2]. rewrite Hs2. cbn [bind].
      rewrite (count_users_missing _ Hu); [reflexivity|].
      apply Exists_exists in Hex as (e & Hin & Hm).
      rewrite Forall_forall in Hl, Hi, Hk.
      apply Exists_exists. exists e. split; [exact Hin|].
      destruct Hm as [H|[H|[H|H]]]; auto;
        [exfalso; exact (Hl e Hin H) | exfalso; exact (Hi e Hin H)
        | exfalso; exact (Hk e Hin H)]. }
    unfold compute_metrics.
    destruct events as [|e0 es]; [congruence|].
    destruct (w <=? 0)%Z eqn:Hw'; [apply Z.leb_le in Hw'; lia|].
    now rewrite Htry.
  - intros events metrics Hlen Hex.
    rewrite (detect_guard _ _ Hlen).
    unfold detect_try, mbind, lift, latency_spike, latencies_of.
    now rewrite (map_res_getattr_missing _ _ Hex).
  - intros events metrics Hlen. unfold detect_anomalies.
    destruct events as [|e0 es]; [reflexivity|].
    apply Nat.ltb_lt in Hlen. now rewrite Hlen.
Qed.

Lemma malformed_event_rejected_witness :
  let bad := mkEvent (Some (TsAware 0)) (Some (VStr "u")) None (Some (VInt 0))
                     (Some (VBool false)) in
  compute_metrics [bad] 5 = inl (ValueError "Invalid log event structure") /\
  detect_anomalies (repeat bad 5) MetricsNoGet
  = inl (ValueError "Invalid log event structure") /\
  detect_anomalies [bad] MetricsNoGet = inr [].
Proof.
  split; [|split].
  - apply (proj1 malformed_event_rejected); [lia | | ].
    + constructor 1. left. reflexivity.
    + repeat constructor; simpl; eauto.
  - apply (proj1 (proj2 malformed_event_rejected)).
    + unfold MIN_EVENTS_FOR_ANALYSIS. simpl. lia.
    + constructor 1. reflexivity.
  - apply (proj2 (proj2 malformed_event_rejected)).
    unfold MIN_EVENTS_FOR_ANALYSIS. simpl. lia.
Defined.

(** ** C6: degraded result on non-structural faults *)

(** Claim C6 as stated names the degraded entry
    [ERROR: anomaly detection failed]; the code appends
    [ERROR: Anomaly detection failed] (capital A). *)
Lemma detect_degraded_text_cex :
  let evs := repeat (valid_event 0 "u" 100 0 false) 5 in
  detect_anomalies evs (MetricsObj [("error_rate", VStr "n/a")])
    = inr ["ERROR: Anomaly detection failed"] /\
  detect_anomalies evs (MetricsObj [("error_rate", VStr "n/a")])
    <> inr ["ERROR: anomaly detection failed"].
Proof. split; [vm_compute; reflexivity | vm_compute; discriminate]. Qed.

(** Claim C6 (amended): on at least five events, a non-structural fault
    does not propagate.  A fault of the latency-spike computation (any
    exception other than [AttributeError], such as a latency value that is
    not a number) yields exactly [[ERROR: Anomaly detection failed]]; an
    [error_rate] entry that is not a number yields the latency signal if
    the spike test (as computed in doubles) tripped, followed by exactly
    one [ERROR: Anomaly detection failed] entry. *)
Theorem detect_degrades_on_fault :
  (forall (events : list LogEvent) (metrics : MetricsArg) (x : exn),
      (MIN_EVENTS_FOR_ANALYSIS <= List.length events)%nat ->
      latency_spike events = inl x -> x <> AttributeError ->
      detect_anomalies events metrics = inr [ERROR_DETECTION]) /\
  (forall (events : list LogEvent) (metrics : MetricsArg),
      (MIN_EVENTS_FOR_ANALYSIS <= List.length events)%nat ->
      Forall (fun e => latency_ms e <> None) events ->
      Exists (fun e => exists v, latency_ms e = Some v /\ py_num v = None) events ->
      detect_anomalies events metrics = inr [ERROR_DETECTION]) /\
  (forall (events : list LogEvent) (d : list (string * PyVal)) (b : bool)
          (v : PyVal),
      (MIN_EVENTS_FOR_ANALYSIS <= List.length events)%nat ->
      latency_spike events = inr b ->
      metrics_get (MetricsObj d) "error_rate" (VFloat (F64.Fin 0)) = inr v ->
      py_num v = None ->
      detect_anomalies events (MetricsObj d)
      = inr ((if b then [CRITICAL_LATENCY] else []) ++ [ERROR_DETECTION])%list).
Proof.
  assert (HA : forall (events : list LogEvent) (metrics : MetricsArg) (x : exn),
      (MIN_EVENTS_FOR_ANALYSIS <= List.length events)%nat ->
      latency_spike events = inl x -> x <> AttributeError ->
      detect_anomalies events metrics = inr [ERROR_DETECTION]).
  { intros events metrics x Hlen Hs Hx.
    rewrite (detect_guard _ _ Hlen). unfold detect_try, mbind, lift. rewrite Hs.
    destruct x; try reflexivity. congruence. }
  split; [exact HA | split].
  - intros events metrics Hlen Hp Hex.
    destruct (map_res_getattr_present _ _ Hp) as [vs [Hvs H2]].
    apply (HA events metrics TypeError Hlen); [|discriminate].
    unfold latency_spike, latencies_of. rewrite Hvs. cbn [bind].
    rewrite np_array_non_numeric; [reflexivity|].
    eapply Forall2_Exists_transfer; [exact H2 | exact Hex |].
    intros e v' Hv (v & Hv2 & Hn). congruence.
  - intros events d b v Hlen Hs Hget Hnum.
    rewrite (detect_guard _ _ Hlen). unfold detect_try, mbind, lift. rewrite Hs.
    destruct b; unfold append, mret;
      rewrite Hget; unfold py_gt; rewrite Hnum; reflexivity.
Qed.

Lemma detect_degrades_on_fault_witness :
  let evs := repeat (valid_event 0 "u" 100 0 false) 5 in
  let bad := mkEvent (Some (TsAware 0)) (Some (VStr "u")) (Some (VStr "slow"))
                     (Some (VInt 0)) (Some (VBool false)) in
  detect_anomalies (bad :: evs) MetricsNoGet = inr [ERROR_DETECTION] /\
  detect_anomalies (bad :: evs) MetricsNoGet = inr [ERROR_DETECTION] /\
  detect_anomalies evs (MetricsObj [("error_rate", VNone)])
  = inr ((if false then [CRITICAL_LATENCY] else []) ++ [ERROR_DETECTION])%list.
Proof.
  split; [|split].
  - apply (proj1 detect_degrades_on_fault) with (x := TypeError).
    + unfold MIN_EVENTS_FOR_ANALYSIS. simpl. lia.
    + vm_compute. reflexivity.
    + discriminate.
  - apply (proj1 (proj2 detect_degrades_on_fault)).
    + unfold MIN_EVENTS_FOR_ANALYSIS. simpl. lia.
    + repeat constructor; simpl; discriminate.
    + constructor 1. exists (VStr "slow"). split; reflexivity.
  - apply (proj2 (proj2 detect_degrades_on_fault)) with (b := false) (v := VNone).
    + unfold MIN_EVENTS_FOR_ANALYSIS. simpl. lia.
    + vm_compute. reflexivity.
    + reflexivity.
    + reflexivity.
Defined.

(** ** C2: the two threshold checks *)

Section Thresholds.

Lemma fold_max_spec (xs : list Z) :
  forall x, In (fold_left Z.max xs x) (x :: xs) /\
            Forall (fun L => (L <= fold_left Z.max xs x)%Z) (x :: xs).
Proof.
  induction xs as [|y xs IH]; intros x; simpl.
  - split; [auto | repeat constructor; lia].
  - destruct (IH (Z.max x y)) as [Hin Hall].
    inversion Hall as [|? ? Hm Hrest]; subst.
    split.
    + destruct Hin as [Hin|Hin].
      * rewrite <- Hin. destruct (Z.max_spec x y) as [[_ ->]|[_ ->]]; auto.
      * simpl; auto.
    + constructor; [lia|]. constructor; [lia | exact Hrest].
Qed.

(** The latency-spike test on integer latencies in the [int64] range:
    [np.mean] and [np.std] of the converted values, compared in doubles
    with the maximum. *)
Lemma latency_spike_int64 (events : list LogEvent) (L0 : Z) (Ls : list Z) :
  map latency_ms events = map (fun L => Some (VInt L)) (L0 :: Ls) ->
  Forall (fun L => in_int64 L = true) (L0 :: Ls) ->
  latency_spike events
  = inr (let xs := map F64.of_Z (L0 :: Ls) in
         let m := F64.div (sum_cast xs) (len_f (List.length (L0 :: Ls))) in
         F64.lt (F64.add m (F64.mul (F64.of_Z 3) (std_f64 xs m)))
                (F64.of_Z (fold_left Z.max Ls L0))).
Proof.
  intros Hmap Hint. unfold latency_spike, latencies_of.
  rewrite (latencies_raw_ints _ _ Hmap). cbn [bind].
  rewrite (np_array_int64 _ _ Hint). reflexivity.
Qed.

End Thresholds.

(** Counterexample to claim C2 as stated (exact arithmetic): on the
    latencies [1] (nine times) and [28] the mean is [3.7] and the
    population standard deviation [8.1], so [mean + 3 * std = 28] equals
    the maximum and the exact test is false; computed in doubles,
    [mean + 3 * std] is [27.999999999999996] and the CRITICAL signal is
    emitted. *)
Lemma detect_threshold_checks_cex :
  let Ls := (repeat 1%Z 9 ++ [28%Z])%list in
  detect_anomalies (map (fun L => valid_event 0 "u" L 0 false) Ls)
    (MetricsObj [("error_rate", VFloat (F64.Fin 0))]) = inr [CRITICAL_LATENCY] /\
  ~ Exact.spike (map inject_Z Ls).
Proof.
  intros Ls. split; [vm_compute; reflexivity|].
  unfold Exact.spike. subst Ls.
  set (xs := map inject_Z (repeat 1%Z 9 ++ [28%Z])).
  assert (H1 : Exact.mean xs == 37 # 10) by (unfold Qeq; vm_compute; reflexivity).
  assert (H2 : Exact.variance xs == (81 # 10) * (81 # 10))
    by (unfold Qeq; vm_compute; reflexivity).
  assert (H3 : Exact.max xs == 28) by (unfold Qeq; vm_compute; reflexivity).
  rewrite (Qeq_eqR _ _ H1), (Qeq_eqR _ _ H2), (Qeq_eqR _ _ H3).
  rewrite Q2R_mult, sqrt_square.
  - unfold Q2R. simpl. lra.
  - unfold Q2R. simpl. lra.
Qed.

(** Claim C2, as the code computes it: for every list of at least five
    events with integer latencies [Ls] in the [int64] range and every
    metrics dictionary whose [error_rate] entry (default [0.0]) is a
    number [r], [detect_anomalies] returns a list containing the CRITICAL
    latency signal iff the maximum [M] of [Ls] (as a double) exceeds
    [mean + 3 * std], with [mean] and [std] (population) computed in
    doubles as numpy does; the WARNING error-rate signal iff [r > 0.10]
    (the double nearest to [0.1]); nothing else; and
    [[CRITICAL; WARNING]] in that order when both trip. *)
Theorem detect_threshold_checks (events : list LogEvent) (Ls : list Z)
    (d : list (string * PyVal)) (v : PyVal) (r : PyNum) :
  (MIN_EVENTS_FOR_ANALYSIS <= List.length events)%nat ->
  map latency_ms events = map (fun L => Some (VInt L)) Ls ->
  Forall (fun L => in_int64 L = true) Ls ->
  metrics_get (MetricsObj d) "error_rate" (VFloat (F64.Fin 0)) = inr v ->
  py_num v = Some r ->
  let xs := map F64.of_Z Ls in
  let mean := F64.div (sum_cast xs) (len_f (List.length Ls)) in
  let std := std_f64 xs mean in
  exists l M, detect_anomalies events (MetricsObj d) = inr l /\
    In M Ls /\ Forall (fun L => (L <= M)%Z) Ls /\
    (In CRITICAL_LATENCY l <->
       F64.lt (F64.add mean (F64.mul (F64.of_Z 3) std)) (F64.of_Z M) = true) /\
    (In WARNING_ERROR_RATE l <-> num_gt r (NFloat MAX_ERROR_RATE) = true) /\
    (F64.lt (F64.add mean (F64.mul (F64.of_Z 3) std)) (F64.of_Z M) = true ->
     num_gt r (NFloat MAX_ERROR_RATE) = true ->
     l = [CRITICAL_LATENCY; WARNING_ERROR_RATE]) /\
    Forall (fun s => s = CRITICAL_LATENCY \/ s = WARNING_ERROR_RATE) l.
Proof.
  intros Hlen Hmap Hint Hget Hr xs mean std.
  destruct Ls as [|L0 Ls].
  { destruct events; [simpl in Hlen; unfold MIN_EVENTS_FOR_ANALYSIS in Hlen; lia|].
    discriminate. }
  destruct (fold_max_spec Ls L0) as [HMin HMall].
  rewrite (detect_guard _ _ Hlen). unfold detect_try, mbind, lift.
  rewrite (latency_spike_int64 _ _ _ Hmap Hint). cbv zeta. fold xs mean std.
  assert (Hneq : CRITICAL_LATENCY <> WARNING_ERROR_RATE) by discriminate.
  destruct (F64.lt (F64.add mean (F64.mul (F64.of_Z 3) std))
                   (F64.of_Z (fold_left Z.max Ls L0))) eqn:HS;
    unfold append, mret; rewrite Hget; unfold py_gt; rewrite Hr;
    destruct (num_gt r (NFloat MAX_ERROR_RATE)) eqn:HW;
    eexists; exists (fold_left Z.max Ls L0);
    (split; [reflexivity|]); (split; [exact HMin|]); (split; [exact HMall|]);
    rewrite ?HS, ?HW; cbn [app].
  - split; [split; [reflexivity | in_msg]|].
    split; [split; [reflexivity | in_msg]|].
    split; [auto | all_msgs].
  - split; [split; [reflexivity | in_msg]|].
    split; [split; [intros [H|[]]; congruence | discriminate]|].
    split; [discriminate | all_msgs].
  - split; [split; [intros [H|[]]; congruence | discriminate]|].
    split; [split; [reflexivity | in_msg]|].
    split; [discriminate | all_msgs].
  - split; [split; [intros [] | discriminate]|].
    split; [split; [intros [] | discriminate]|].
    split; [discriminate | constructor].
Qed.

Lemma detect_threshold_checks_witness :
  let Ls := (repeat 1%Z 9 ++ [28%Z])%list in
  let xs := map F64.of_Z Ls in
  let mean := F64.div (sum_cast xs) (len_f (List.length Ls)) in
  let std := std_f64 xs mean in
  exists l M,
    detect_anomalies (map (fun L => valid_event 0 "u" L 0 false) Ls)
      (MetricsObj [("error_rate", VFloat (F64.Fin 0))]) = inr l /\
    In M Ls /\ Forall (fun L => (L <= M)%Z) Ls /\
    (In CRITICAL_LATENCY l <->
       F64.lt (F64.add mean (F64.mul (F64.of_Z 3) std)) (F64.of_Z M) = true) /\
    (In WARNING_ERROR_RATE l <-> num_gt (NFloat (F64.Fin 0)) (NFloat MAX_ERROR_RATE) = true) /\
    (F64.lt (F64.add mean (F64.mul (F64.of_Z 3) std)) (F64.of_Z M) = true ->
     num_gt (NFloat (F64.Fin 0)) (NFloat MAX_ERROR_RATE) = true ->
     l = [CRITICAL_LATENCY; WARNING_ERROR_RATE]) /\
    Forall (fun s => s = CRITICAL_LATENCY \/ s = WARNING_ERROR_RATE) l.
Proof.
  apply (detect_threshold_checks _ (repeat 1%Z 9 ++ [28%Z])
           [("error_rate", VFloat (F64.Fin 0))] (VFloat (F64.Fin 0))).
  - unfold MIN_EVENTS_FOR_ANALYSIS. simpl. lia.
  - reflexivity.
  - repeat constructor.
  - reflexivity.
  - reflexivity.
Defined.

(** ** Inversion of a successful [compute_metrics] *)

Section ComputeShape.

Lemma map_res_length {A B} (f : A -> Result B) (l : list A) (l' : list B) :
  map_res f l = inr l' -> List.length l' = List.length l.
Proof.
  revert l'; induction l as [|x l IH]; intros l' H; simpl in H.
  - inversion H; reflexivity.
  - destruct (f x) as [e|y]; simpl in H; [discriminate|].
    destruct (map_res f l) as [e|ys] eqn:E; simpl in H; [discriminate|].
    inversion H; subst. simpl. now rewrite (IH ys).
Qed.

Lemma compute_metrics_dict_inv (events : list LogEvent) (w : Z) (m : Metrics) :
  compute_metrics events w = inr (MetricsDict m) ->
  events <> [] /\ (0 < w)%Z /\ compute_try events w = inr m.
Proof.
  unfold compute_metrics. destruct events as [|e es]; [discriminate|].
  destruct (w <=? 0)%Z eqn:Hw; [discriminate|].
  destruct (compute_try _ w) as [[]|m'] eqn:Hc; try discriminate.
  intros H; inversion H; subst. repeat split; [discriminate|lia].
Qed.

Lemma compute_try_inv (events : list LogEvent) (w : Z) (m : Metrics) :
  compute_try events w = inr m ->
  exists raw te tt pu arr,
    map_res (fun e => getattr (latency_ms e)) events = inr raw /\
    py_sum is_error (NInt 0) events = inr te /\
    py_sum tokens_used (NInt 0) events = inr tt /\
    count_users [] events = inr pu /\
    np_array raw = inr arr /\
    np_mean arr = inr (avg_latency m) /\
    np_percentile arr 50 = inr (p50_latency m) /\
    np_percentile arr 95 = inr (p95_latency m) /\
    np_percentile arr 99 = inr (p99_latency m) /\
    py_truediv te (NInt (Z.of_nat (List.length events))) = inr (error_rate m) /\
    py_floordiv tt (NInt w) = inr (tokens_per_min m) /\
    requests_per_min m = (Z.of_nat (List.length events) / w)%Z /\
    per_user_requests m = pu.
Proof.
  unfold compute_try.
  destruct (map_res _ events) as [x|raw] eqn:E1; cbn [bind]; [discriminate|].
  destruct (py_sum is_error (NInt 0) events) as [x|te] eqn:E2; cbn [bind]; [discriminate|].
  destruct (py_sum tokens_used (NInt 0) events) as [x|tt] eqn:E3; cbn [bind]; [discriminate|].
  destruct (count_users [] events) as [x|pu] eqn:E4; cbn [bind]; [discriminate|].
  destruct (np_array raw) as [x|arr] eqn:E5; cbn [bind]; [discriminate|].
  destruct (np_mean arr) as [x|avg] eqn:E6; cbn [bind]; [discriminate|].
  destruct (np_percentile arr 50) as [x|p50] eqn:E7; cbn [bind]; [discriminate|].
  destruct (np_percentile arr 95) as [x|p95] eqn:E8; cbn [bind]; [discriminate|].
  destruct (np_percentile arr 99) as [x|p99] eqn:E9; cbn [bind]; [discriminate|].
  destruct (py_truediv te _) as [x|er] eqn:E10; cbn [bind]; [discriminate|].
  destruct (py_floordiv tt _) as [x|tpm] eqn:E11; cbn [bind]; [discriminate|].
  destruct (py_truediv tt _) as [x|c1] eqn:E12; cbn [bind]; [discriminate|].
  unfold ret. intros H; inversion H; subst.
  exists raw, te, tt, pu, arr. cbn. repeat split; assumption.
Qed.

End ComputeShape.

(** ** Per-user counts and the error rate *)

Section Counts.
Local Open Scope Q_scope.

Lemma dict_incr_total (d : list (PyVal * Z)) (k : PyVal) :
  dict_total (dict_incr d k) = (dict_total d + 1)%Z.
Proof.
  induction d as [|[k' c] d IH]; simpl; [reflexivity|].
  destruct (key_eqb k' k); simpl; [lia|]. rewrite IH. lia.
Qed.

Lemma count_users_total (es : list LogEvent) :
  forall d d', count_users d es = inr d' ->
  dict_total d' = (dict_total d + Z.of_nat (List.length es))%Z.
Proof.
  induction es as [|e es IH]; intros d d' H; simpl in H.
  - inversion H; subst. simpl. lia.
  - destruct (user_id e) as [u|]; simpl in H; [|discriminate].
    destruct (hashable u); [|discriminate].
    rewrite (IH _ _ H), dict_incr_total. simpl List.length. lia.
Qed.

Lemma key_eqb_str (k : PyVal) (v : string) :
  key_eqb k (VStr v) = match k with VStr s => String.eqb s v | _ => false end.
Proof. destruct k; reflexivity. Qed.

Lemma user_count_incr (d : list (PyVal * Z)) (u v : string) :
  user_count u (dict_incr d (VStr v))
  = (user_count u d + if String.eqb v u then 1 else 0)%Z.
Proof.
  induction d as [|[k c] d IH]; unfold user_count in *; simpl.
  - rewrite key_eqb_str. destruct (String.eqb v u); reflexivity.
  - rewrite !key_eqb_str. destruct k as [| | |w| |]; simpl; try exact IH.
    destruct (String.eqb w v) eqn:Ewv; simpl; rewrite key_eqb_str.
    + apply String.eqb_eq in Ewv; subst w.
      destruct (String.eqb v u); lia.
    + destruct (String.eqb w u) eqn:Ewu; [|exact IH].
      apply String.eqb_eq in Ewu; subst w.
      destruct (String.eqb v u) eqn:Evu; [|lia].
      apply String.eqb_eq in Evu; subst v. rewrite String.eqb_refl in Ewv.
      discriminate.
Qed.

Lemma count_users_strings (es : list LogEvent) :
  Forall (fun e => exists v, user_id e = Some (VStr v)) es ->
  forall d, exists d', count_users d es = inr d' /\
    (forall u, user_count u d'
               = (user_count u d + Z.of_nat (List.length (filter (user_is u) es)))%Z).
Proof.
  induction 1 as [|e es [v Hv] _ IH]; intros d; simpl.
  - exists d. split; [reflexivity|]. intros u. lia.
  - rewrite Hv. simpl. destruct (IH (dict_incr d (VStr v))) as (d' & Hd' & Hc).
    exists d'. split; [exact Hd'|]. intros u. rewrite Hc, user_count_incr.
    cbn [filter].
    replace (user_is u e) with (String.eqb v u)
      by (unfold user_is; rewrite Hv; reflexivity).
    destruct (String.eqb v u); simpl List.length; lia.
Qed.

Lemma py_sum_bools (es : list LogEvent) :
  Forall (fun e => exists b, is_error e = Some (VBool b)) es ->
  forall a, py_sum is_error (NInt a) es
            = inr (NInt (a + Z.of_nat (List.length (filter errored es)))).
Proof.
  induction 1 as [|e es [b Hb] _ IH]; intros a; simpl.
  - unfold ret. do 2 f_equal. lia.
  - rewrite Hb. simpl. rewrite IH. cbn [filter].
    replace (errored e) with b by (unfold errored; rewrite Hb; now destruct b).
    destruct b; cbn [List.length]; rewrite ?Nat2Z.inj_succ; do 2 f_equal; lia.
Qed.

End Counts.

(** Extra: the counts in [per_user_requests] always add up to the number
    of events, whatever the user ids are (ids that compare equal, such as
    [1] and [True], share one entry). *)
Theorem compute_per_user_total (events : list LogEvent) (w : Z) (m : Metrics) :
  compute_metrics events w = inr (MetricsDict m) ->
  dict_total (per_user_requests m) = Z.of_nat (List.length events).
Proof.
  intros Hc. destruct (compute_metrics_dict_inv _ _ _ Hc) as [_ [_ Ht]].
  destruct (compute_try_inv _ _ _ Ht) as (raw & te & tt & pu & arr & _ & _ & _ & Hu & _ & _ & _ & _ & _ & _ & _ & _ & ->).
  simpl. rewrite (count_users_total _ _ _ Hu). reflexivity.
Qed.

Lemma compute_per_user_total_witness :
  let evs := [mkEvent (Some (TsAware 0)) (Some (VInt 1)) (Some (VInt 10))
                      (Some (VInt 0)) (Some (VBool false));
              mkEvent (Some (TsAware 0)) (Some (VBool true)) (Some (VInt 20))
                      (Some (VInt 0)) (Some (VBool false));
              valid_event 0 "a" 30 0 false] in
  exists m, compute_metrics evs 2 = inr (MetricsDict m) /\
    dict_total (per_user_requests m) = 3%Z.
Proof.
  intros evs. eexists. split; [vm_compute; reflexivity|].
  apply (compute_per_user_total evs 2). vm_compute. reflexivity.
Defined.

(** Extra: when every [user_id] is a string, [per_user_requests.get(u, 0)]
    is the number of events of user [u] in the batch, for every [u]. *)
Theorem compute_per_user_counts (events : list LogEvent) (w : Z) (m : Metrics) :
  compute_metrics events w = inr (MetricsDict m) ->
  Forall (fun e => exists v, user_id e = Some (VStr v)) events ->
  forall u, user_count u (per_user_requests m)
            = Z.of_nat (List.length (filter (user_is u) events)).
Proof.
  intros Hc Hs u. destruct (compute_metrics_dict_inv _ _ _ Hc) as [_ [_ Ht]].
  destruct (compute_try_inv _ _ _ Ht) as (raw & te & tt & pu & arr & _ & _ & _ & Hu & _ & _ & _ & _ & _ & _ & _ & _ & ->).
  destruct (count_users_strings _ Hs []) as (d' & Hd' & Hcnt).
  rewrite Hu in Hd'. inversion Hd'; subst d'. simpl. rewrite Hcnt. reflexivity.
Qed.

Lemma compute_per_user_counts_witness :
  let evs := [valid_event 0 "a" 10 0 false; valid_event 1 "b" 20 0 true;
              valid_event 2 "a" 30 0 false] in
  exists m, compute_metrics evs 2 = inr (MetricsDict m) /\
    user_count "a" (per_user_requests m) = 2%Z /\
    user_count "b" (per_user_requests m) = 1%Z /\
    user_count "c" (per_user_requests m) = 0%Z.
Proof.
  intros evs. eexists. split; [vm_compute; reflexivity|].
  assert (Hs : Forall (fun e => exists v, user_id e = Some (VStr v)) evs)
    by (repeat constructor; eexists; reflexivity).
  split; [|split];
    rewrite (compute_per_user_counts evs 2 _ ltac:(vm_compute; reflexivity) Hs);
    reflexivity.
Defined.

(** Extra: when every [is_error] is a boolean, [error_rate] is the number
    of events with [is_error = True] divided by the number of events,
    rounded to the nearest double. *)
Theorem compute_error_rate_fraction (events : list LogEvent) (w : Z) (m : Metrics) :
  compute_metrics events w = inr (MetricsDict m) ->
  Forall (fun e => exists b, is_error e = Some (VBool b)) events ->
  error_rate m = F64.round (inject_Z (Z.of_nat (List.length (filter errored events)))
                            / inject_Z (Z.of_nat (List.length events))).
Proof.
  intros Hc Hb. destruct (compute_metrics_dict_inv _ _ _ Hc) as [Hne [_ Ht]].
  destruct (compute_try_inv _ _ _ Ht)
    as (raw & te & tt & pu & arr & _ & He & _ & _ & _ & _ & _ & _ & _ & Her & _).
  rewrite (py_sum_bools _ Hb 0) in He. inversion He; subst te.
  unfold py_truediv in Her.
  destruct (Z.of_nat (List.length events) =? 0)%Z; [discriminate|].
  rewrite ?Z.add_0_l in Her.
  destruct (F64.round _) as [q| |]; inversion Her; reflexivity.
Qed.

Lemma compute_error_rate_fraction_witness :
  let evs := [valid_event 0 "a" 10 0 true; valid_event 1 "b" 20 0 false;
              valid_event 2 "a" 30 0 false; valid_event 3 "c" 40 0 true] in
  exists m, compute_metrics evs 2 = inr (MetricsDict m) /\
    error_rate m = F64.Fin (1 # 2).
Proof.
  intros evs. eexists. split; [vm_compute; reflexivity|].
  rewrite (compute_error_rate_fraction evs 2 _ ltac:(vm_compute; reflexivity)).
  - vm_compute. reflexivity.
  - repeat constructor; eexists; reflexivity.
Defined.

(** ** Sliding window: fresh and naive events *)

Lemma evict_loop_fresh_head (c t : Z) (e : LogEvent) (q : State) :
  timestamp e = Some (TsAware t) -> (c <= t)%Z ->
  evict_loop c (e :: q) = (e :: q, None).
Proof.
  intros Ht Hc. simpl. rewrite Ht. simpl.
  replace (t <? c)%Z with false by lia. reflexivity.
Qed.

(** Extra: the sweep stops at the oldest admitted event if it is still
    inside the window: [get_events] then returns the whole window
    unchanged, including any older event that arrived after it. *)
Theorem get_events_fresh_head (now t : Z) (e : LogEvent) (q : State) :
  timestamp e = Some (TsAware t) -> (now - window_us <= t)%Z ->
  get_events now (e :: q) = (e :: q, inr (e :: q)).
Proof.
  intros Ht Hc. unfold get_events, _evict_old_events.
  rewrite (evict_loop_fresh_head _ t e q Ht Hc). reflexivity.
Qed.

Lemma get_events_fresh_head_witness :
  get_events 200000000 [valid_event 150000000 "a" 10 0 false;
                        valid_event 0 "b" 10 0 false]
  = ([valid_event 150000000 "a" 10 0 false; valid_event 0 "b" 10 0 false],
     inr [valid_event 150000000 "a" 10 0 false; valid_event 0 "b" 10 0 false]).
Proof.
  apply (get_events_fresh_head 200000000 150000000); [reflexivity|].
  unfold window_us, WINDOW_MINUTES. lia.
Defined.

Lemma evict_loop_naive_head (c t : Z) (e : LogEvent) (q : State) :
  timestamp e = Some (TsNaive t) -> evict_loop c (e :: q) = (e :: q, Some TypeError).
Proof. intros Ht. simpl. rewrite Ht. reflexivity. Qed.

(** Extra: an event with a naive timestamp is stored even though its
    ingestion answers 500; once it is the oldest event of the window,
    every later [POST /ingest] of an event with a timestamp answers 500
    while still appending the event, and every [GET /metrics] answers
    500, whatever the clock. *)
Theorem naive_timestamp_poisons_window (t : Z) (e : LogEvent) :
  timestamp e = Some (TsNaive t) ->
  (forall now, ingest_log now e [] = ([e], HttpError 500 "Failed to ingest log event")) /\
  (forall now q, Endpoint.get_metrics now (e :: q)
                 = (e :: q, HttpError 500 "Failed to compute metrics")) /\
  (forall now e' q ts, timestamp e' = Some ts -> ts <> TsNone ->
     ingest_log now e' (e :: q)
     = ((e :: q ++ [e'])%list, HttpError 500 "Failed to ingest log event")).
Proof.
  intros Ht. split; [|split].
  - intros now. unfold ingest_log, add, _evict_old_events. rewrite Ht.
    simpl. rewrite Ht. reflexivity.
  - intros now q. unfold Endpoint.get_metrics, get_events, _evict_old_events.
    rewrite (evict_loop_naive_head _ t e q Ht). reflexivity.
  - intros now e' q ts Hts Hn. unfold ingest_log, add, _evict_old_events.
    rewrite Hts. replace (((e :: q) ++ [e'])%list) with (e :: (q ++ [e']))%list
      by reflexivity.
    destruct ts as [u|u|]; [| |congruence];
      rewrite (evict_loop_naive_head _ t e (q ++ [e'])%list Ht); reflexivity.
Qed.

Lemma naive_timestamp_poisons_window_witness :
  let e := mkEvent (Some (TsNaive 0)) (Some (VStr "a")) (Some (VInt 10))
                   (Some (VInt 0)) (Some (VBool false)) in
  (forall now, ingest_log now e [] = ([e], HttpError 500 "Failed to ingest log event")) /\
  (forall now q, Endpoint.get_metrics now (e :: q)
                 = (e :: q, HttpError 500 "Failed to compute metrics")) /\
  (forall now e' q ts, timestamp e' = Some ts -> ts <> TsNone ->
     ingest_log now e' (e :: q)
     = ((e :: q ++ [e'])%list, HttpError 500 "Failed to ingest log event")).
Proof. intros e. apply (naive_timestamp_poisons_window 0 e). reflexivity. Defined.

Lemma evict_loop_keeps_fresh_last (c t : Z) (e : LogEvent) (q : State) :
  timestamp e = Some (TsAware t) -> (c <= t)%Z ->
  forall l o, evict_loop c (q ++ [e])%list = (l, o) -> exists p, l = (p ++ [e])%list.
Proof.
  intros Ht Hc. induction q as [|x q IH]; intros l o H.
  - cbn [app] in H. rewrite (evict_loop_fresh_head c t e [] Ht Hc) in H.
    inversion H; subst.
    exists []. reflexivity.
  - simpl in H. destruct (ts_lt (timestamp x) c) as [err|[|]].
    + inversion H; subst. exists (x :: q). reflexivity.
    + exact (IH l o H).
    + inversion H; subst. exists (x :: q). reflexivity.
Qed.

(** Extra: ingesting an event whose timestamp is still inside the window,
    into a window of timezone-aware events, answers 201 and leaves that
    event as the newest element of the window, after dropping expired
    events from the front. *)
Theorem ingest_fresh_event_kept (now t : Z) (e : LogEvent) (q : State) :
  Forall aware q ->
  timestamp e = Some (TsAware t) -> (now - window_us <= t)%Z ->
  exists p, ingest_log now e q = ((p ++ [e])%list, HttpOk 201 "ok") /\
            exists d, q = (d ++ p)%list.
Proof.
  intros Hq Ht Hc. unfold ingest_log, add, _evict_old_events. rewrite Ht.
  assert (Ha : Forall aware (q ++ [e])%list)
    by (apply Forall_app; split; [exact Hq|constructor; [exists t; exact Ht|constructor]]).
  pose proof (evict_loop_aware (now - window_us) _ Ha) as Hn.
  destruct (evict_loop (now - window_us) (q ++ [e])%list) as [l o] eqn:E.
  simpl in Hn. subst o.
  destruct (evict_loop_keeps_fresh_last _ t e q Ht Hc l None E) as [p ->].
  exists p. split; [reflexivity|].
  destruct (evict_loop_prefix _ _ _ _ E) as [d Hd].
  exists d. rewrite app_assoc in Hd. apply app_inj_tail in Hd. apply Hd.
Qed.

Lemma ingest_fresh_event_kept_witness :
  exists p, ingest_log 200000000 (valid_event 190000000 "c" 10 0 false)
              [valid_event 0 "a" 10 0 false; valid_event 100000000 "b" 10 0 false]
            = ((p ++ [valid_event 190000000 "c" 10 0 false])%list, HttpOk 201 "ok") /\
            exists d, [valid_event 0 "a" 10 0 false; valid_event 100000000 "b" 10 0 false]
                      = (d ++ p)%list.
Proof.
  apply (ingest_fresh_event_kept 200000000 190000000).
  - repeat constructor; eexists; reflexivity.
  - reflexivity.
  - unfold window_us, WINDOW_MINUTES. lia.
Defined.

(** ** Dashboard status of the detector's output *)

Lemma detect_outputs (events : list LogEvent) (metrics : MetricsArg) (l : list string) :
  detect_anomalies events metrics = inr l ->
  l = [] \/ l = [CRITICAL_LATENCY] \/ l = [WARNING_ERROR_RATE] \/
  l = [CRITICAL_LATENCY; WARNING_ERROR_RATE] \/ l = [ERROR_DETECTION] \/
  l = [CRITICAL_LATENCY; ERROR_DETECTION].
Proof.
  unfold detect_anomalies.
  destruct events as [|e es]; [intros H; inversion H; auto|].
  destruct (_ <? _)%nat; [intros H; inversion H; auto|].
  pose proof (detect_try_shape (e :: es) metrics) as Hs.
  destruct (detect_try (e :: es) metrics []) as [s [x|u]].
  - destruct x; intros H; inversion H; subst;
      destruct Hs as [->| ->]; simpl; auto 6.
  - intros H; inversion H; subst. intuition.
Qed.

(** Extra: [render_status] on an anomaly list produced by
    [detect_anomalies] shows CRITICAL exactly when the latency spike
    signal is in it, HEALTHY when the list is empty, and WARNING
    otherwise, which includes the degraded "ERROR: Anomaly detection
    failed" entry on its own. *)
Theorem render_status_of_detection (events : list LogEvent) (metrics : MetricsArg)
    (l : list string) :
  detect_anomalies events metrics = inr l ->
  StatusBox.render_status (StatusBox.FetchJson (Some l))
  = if in_dec string_dec CRITICAL_LATENCY l then "CRITICAL"
    else match l with [] => "HEALTHY" | _ => "WARNING" end.
Proof.
  intros H.
  destruct (detect_outputs _ _ _ H) as [->|[->|[->|[->|[->| ->]]]]];
    vm_compute; reflexivity.
Qed.

Lemma render_status_of_detection_witness :
  let evs := (repeat (valid_event 0 "u" 100 0 false) 5)%list in
  exists l, detect_anomalies evs (MetricsObj [("error_rate", VStr "high")]) = inr l /\
    StatusBox.render_status (StatusBox.FetchJson (Some l))
    = if in_dec string_dec CRITICAL_LATENCY l then "CRITICAL"
      else match l with [] => "HEALTHY" | _ => "WARNING" end.
Proof.
  intros evs. eexists. split; [vm_compute; reflexivity|].
  apply (render_status_of_detection evs (MetricsObj [("error_rate", VStr "high")])). vm_compute. reflexivity.
Defined.

